(** * chats: conversations, messages and read state

    A shallow embedding of the Django application [chats]
    ([models.py], [serializers.py], [views.py]) and the properties of its
    conversation / message domain.

    The database is a record of tables ([gmap] from primary key to row), the
    many-to-many relation [Conversation.participants] is a finite set of user
    ids per conversation, and every view is a function from the store, the
    authenticated user, the clock and the request payload to a new store and
    a response.  ORM exceptions ([DoesNotExist], [Http404], ...) are threaded
    through a small error monad.

    What the framework does for the application is modelled as far as the
    views rely on it: querysets and their ordering, [get_object], the
    validation of serializer fields, [auto_now] / [auto_now_add], and the
    generic update action of a [ModelViewSet]. *)

From Stdlib Require Import ZArith String.
From stdpp Require Import gmap list sorting.

Local Open Scope Z_scope.

(** ** Data model ([models.py]) *)

(** Instants of [timezone.now()]. *)
Definition Time := Z.

(** Successive readings of the wall clock during one request: [clk 0] is
    the first call of [timezone.now()], [clk 1] the second, and so on. *)
Definition Clock := nat → Time.

(** [class User(AbstractUser)]; the primary key is the key of the table. *)
Record User := mkUser {
  username : string;
  email : string;
  is_online : bool
}.

(** [class Conversation(models.Model)]: [participants] is the
    [ManyToManyField] (a set of user ids, no order, no duplicates),
    [created_at] is [auto_now_add], [updated_at] is [auto_now]. *)
Record Conversation := mkConversation {
  participants : gset Z;
  created_at : Time;
  updated_at : Time
}.

(** [class Message(models.Model)]: [sender] and [conversation] are foreign
    keys (stored as ids), [timestamp] is [auto_now_add], [is_read] defaults
    to [False]. *)
Record Message := mkMessage {
  sender : Z;
  conversation : Z;
  content : string;
  timestamp : Time;
  is_read : bool
}.

(** The database: one table per model and the two [AutoField] sequences
    used by the views of this application. *)
Record Store := mkStore {
  users : gmap Z User;
  conversations : gmap Z Conversation;
  messages : gmap Z Message;
  next_conversation_id : Z;
  next_message_id : Z
}.

Definition set_conversations (cs : gmap Z Conversation) (s : Store) : Store :=
  mkStore (users s) cs (messages s) (next_conversation_id s) (next_message_id s).

Definition set_messages (ms : gmap Z Message) (s : Store) : Store :=
  mkStore (users s) (conversations s) ms (next_conversation_id s) (next_message_id s).

Definition set_participants (ps : gset Z) (c : Conversation) : Conversation :=
  mkConversation ps (created_at c) (updated_at c).

Definition set_is_read (b : bool) (m : Message) : Message :=
  mkMessage (sender m) (conversation m) (content m) (timestamp m) b.

(** ** The ORM operations the application uses *)

(** Python truthiness of [request.data.get(key)] where the payload holds
    JSON integers: a missing key ([None]) and [0] are falsy. *)
Definition truthy (v : option Z) : bool :=
  match v with
  | Some z => negb (z =? 0)
  | None => false
  end.

(** [ORDER BY key DESC] over the rows of a query.  The database leaves the
    order of rows with equal keys open; the model sorts the rows of the
    table scan with a merge sort. *)
Definition desc {A} (key : A → Time) : relation A := λ a b, key b ≤ key a.

#[global] Instance desc_dec {A} (key : A → Time) : RelDecision (desc key).
Proof. intros a b. unfold desc. apply Z.le_dec. Defined.

Definition order_by_desc {A} (key : A → Time) (rows : list A) : list A :=
  merge_sort (desc key) rows.

(** [Conversation.save()]: [auto_now] assigns the clock reading to
    [updated_at], whatever the previous value. *)
Definition Conversation_save (now : Time) (c : Conversation) : Conversation :=
  mkConversation (participants c) (created_at c) now.

(** [Conversation.objects.get(id=pk, participants=user)]; [None] stands for
    [Conversation.DoesNotExist]. *)
Definition Conversation_get (s : Store) (pk u : Z) : option Conversation :=
  c ← conversations s !! pk;
  if bool_decide (u ∈ participants c) then Some c else None.

(** [User.objects.get(id=user_id)]; [None] stands for [User.DoesNotExist]. *)
Definition User_get (s : Store) (user_id : option Z) : option (Z * User) :=
  i ← user_id; user ← users s !! i; Some (i, user).

(** The join [conversation__participants=user] on a message row. *)
Definition conversation_has_participant (s : Store) (u : Z) (m : Message) : bool :=
  match conversations s !! conversation m with
  | Some c => bool_decide (u ∈ participants c)
  | None => false
  end.

(** [conversation.messages.all()]: the reverse relation of
    [Message.conversation], in the order of [Message.Meta.ordering]
    ([-timestamp]). *)
Definition Conversation_messages (s : Store) (pk : Z) : list (Z * Message) :=
  order_by_desc (λ r, timestamp r.2)
    (filter (λ r, conversation r.2 = pk) (map_to_list (messages s))).

(** [Conversation.last_message]: [self.messages.first()]. *)
Definition last_message (s : Store) (pk : Z) : option (Z * Message) :=
  head (Conversation_messages s pk).

(** ** Exceptions and responses *)

(** The exceptions the ORM and the framework raise in this application. *)
Inductive Exception :=
  | Http404
  | ValidationError
  | DoesNotExist
  | IntegrityError
  | OverflowError.

(** A computation that returns or raises. *)
Inductive Raises (A : Type) :=
  | Return (a : A)
  | Raise (e : Exception).
Arguments Return {A} a.
Arguments Raise {A} e.

Definition bind {A B} (m : Raises A) (k : A → Raises B) : Raises B :=
  match m with
  | Return a => k a
  | Raise e => Raise e
  end.

Notation "'do' x <- m ; k" := (bind m (λ x, k))
  (at level 10, x pattern, m at level 100, k at level 200).

(** [rest_framework.status]. *)
Inductive Status :=
  | HTTP_200_OK
  | HTTP_201_CREATED
  | HTTP_400_BAD_REQUEST
  | HTTP_403_FORBIDDEN
  | HTTP_404_NOT_FOUND
  | HTTP_500_INTERNAL_SERVER_ERROR.

#[global] Instance Status_eq_dec : EqDecision Status.
Proof. solve_decision. Defined.

(** One element of [ConversationListSerializer(many=True).data]. *)
Record ConversationListItem := mkItem {
  item_id : Z;
  item_conversation : Conversation;
  item_last_message : option (Z * Message);
  item_message_count : nat
}.

(** Response payloads: the two dictionaries the views build by hand
    ([{'error': ...}], [{'message': ...}]), serializer data, and the body
    the framework writes for an exception it handles itself. *)
Inductive Body :=
  | BError (text : string)
  | BMessage (text : string)
  | BConversationData (pk : Z) (c : Conversation)
      (recent : list (Z * Message)) (last : option (Z * Message)) (count : nat)
  | BMessageData (pk : Z) (m : Message)
  | BConversationList (items : list ConversationListItem)
  | BMessageList (rows : list (Z * Message))
  | BDetail.

Record Response := mkResponse {
  status : Status;
  data : Body
}.

(** ** Serializers ([serializers.py]) *)

(** The writable fields of [MessageSerializer]: [Meta.fields] without
    [sender], declared read-only, and without [id] and [timestamp], listed
    in [Meta.read_only_fields]; [is_read] is not listed there.  [None] is a
    field missing from the payload.  [data_content] holds the text as the
    serializer's text field returns it (stripped and not blank); a payload
    whose text that field rejects is not represented here. *)
Record MessageData := mkMessageData {
  data_sender_id : option Z;
  data_conversation : option Z;
  data_content : option string;
  data_is_read : option bool
}.

(** [validated_data] of a [MessageSerializer]. *)
Record ValidatedMessage := mkValidated {
  v_sender_id : option Z;
  v_conversation : Z;
  v_content : string;
  v_is_read : option bool
}.

(** [serializer.is_valid(raise_exception=True)] for a new message:
    [conversation] and [content] are required and [conversation] must be the
    primary key of an existing conversation. *)
Definition MessageSerializer_is_valid (s : Store) (d : MessageData)
  : Raises ValidatedMessage :=
  match data_conversation d, data_content d with
  | Some cid, Some text =>
      if bool_decide (is_Some (conversations s !! cid))
      then Return (mkValidated (data_sender_id d) cid text (data_is_read d))
      else Raise ValidationError
  | _, _ => Raise ValidationError
  end.

(** [Message.save()]: the row is written, then the conversation of the
    message is saved, which stamps its [updated_at]. *)
Definition Message_save (now : Time) (pk : Z) (m : Message) (s : Store) : Store :=
  let s := set_messages (<[pk := m]> (messages s)) s in
  set_conversations (alter (Conversation_save now) (conversation m) (conversations s)) s.

(** [Message.objects.create] on the validated data, as
    [ModelSerializer.create] calls it.  A [sender_id] left in
    [validated_data] is assigned after [sender] and overrides it; the
    foreign key to the user table is checked by the database.  The first clock reading is the [auto_now_add] of
    [timestamp], the second the [auto_now] of the conversation. *)
Definition Message_objects_create (s : Store) (clk : Clock)
    (sender_obj : Z) (leftover_sender_id : option Z)
    (cid : Z) (text : string) (read : option bool)
  : Raises (Store * (Z * Message)) :=
  let sid := default sender_obj leftover_sender_id in
  if bool_decide (is_Some (users s !! sid)) then
    let pk := next_message_id s in
    let m := mkMessage sid cid text (clk 0%nat) (default false read) in
    let s := mkStore (users s) (conversations s) (messages s)
               (next_conversation_id s) (pk + 1) in
    Return (Message_save (clk 1%nat) pk m s, (pk, m))
  else Raise IntegrityError.

(** [MessageSerializer.create]; [u] is [request.user] (the view always
    passes the request in the serializer context). *)
Definition MessageSerializer_create (s : Store) (u : Z) (clk : Clock)
    (v : ValidatedMessage) : Raises (Store * (Z * Message)) :=
  if negb (truthy (v_sender_id v)) then
    Message_objects_create s clk u (v_sender_id v)
      (v_conversation v) (v_content v) (v_is_read v)
  else
    match v_sender_id v with
    | Some sid =>
        match users s !! sid with
        | Some _ =>
            Message_objects_create s clk sid None
              (v_conversation v) (v_content v) (v_is_read v)
        | None => Raise DoesNotExist
        end
    | None =>
        Message_objects_create s clk u None
          (v_conversation v) (v_content v) (v_is_read v)
    end.

(** Validation of the payload of an update.  [MessageSerializer] is a
    [ModelSerializer]: [conversation] and [content] are required unless the
    update is partial, and [conversation], when given, must be the primary
    key of an existing conversation, any one of them. *)
Definition MessageSerializer_is_valid_update (s : Store) (partial : bool)
    (d : MessageData) : Raises MessageData :=
  let required_missing :=
    negb partial
    && negb (bool_decide (is_Some (data_conversation d))
             && bool_decide (is_Some (data_content d))) in
  if required_missing then Raise ValidationError
  else
    match data_conversation d with
    | Some cid =>
        if bool_decide (is_Some (conversations s !! cid))
        then Return d else Raise ValidationError
    | None => Return d
    end.

(** [ModelSerializer.update], which [MessageSerializer] does not override:
    every validated field is assigned to the instance and the instance is
    saved with [Message.save].  The row keeps its [timestamp]
    ([auto_now_add]); the only clock reading is the [auto_now] of the
    conversation. *)
Definition ModelSerializer_update (s : Store) (clk : Clock)
    (instance : Z * Message) (v : MessageData) : Raises (Store * (Z * Message)) :=
  let m := instance.2 in
  let m := mkMessage (default (sender m) (data_sender_id v))
             (default (conversation m) (data_conversation v))
             (default (content m) (data_content v))
             (timestamp m)
             (default (is_read m) (data_is_read v)) in
  if bool_decide (is_Some (users s !! sender m))
  then Return (Message_save (clk 0%nat) instance.1 m s, (instance.1, m))
  else Raise IntegrityError.

(** The integers the database binds as query parameters: signed, 64 bits.
    [participant_ids] is a list of unbounded integers ([IntegerField]
    without [min_value] and [max_value]). *)
Definition in_range (i : Z) : bool := (- 2 ^ 63 <=? i) && (i <? 2 ^ 63).

(** [User.objects.filter(id__in=participant_ids)], evaluated: the ids are
    bound as parameters of the query, which raises when one of them does
    not fit. *)
Definition User_filter_id_in (s : Store) (participant_ids : list Z)
  : Raises (gset Z) :=
  if forallb in_range participant_ids
  then Return (dom (filter (λ r, r.1 ∈ participant_ids) (users s)))
  else Raise OverflowError.

(** [ConversationSerializer.create]: a fresh conversation, the users whose
    id is in [participant_ids], and always the requesting user.  The row of
    the conversation is written first, by [Conversation.objects.create()],
    and nothing takes it back: when the query for the users raises, the
    store keeps a conversation without participants, which the first
    component returns together with the exception. *)
Definition ConversationSerializer_create (s : Store) (u : Z) (clk : Clock)
    (participant_ids : option (list Z)) : Store * Raises (Z * Conversation) :=
  let participant_ids := default [] participant_ids in
  let pk := next_conversation_id s in
  let conversation := mkConversation ∅ (clk 0%nat) (clk 1%nat) in
  let created :=
    mkStore (users s) (<[pk := conversation]> (conversations s)) (messages s)
      (pk + 1) (next_message_id s) in
  let found :=
    if bool_decide (participant_ids ≠ [])
    then User_filter_id_in s participant_ids
    else Return ∅ in
  match found with
  | Return found =>
      let conversation := set_participants found conversation in
      let conversation :=
        set_participants (participants conversation ∪ {[u]}) conversation in
      (set_conversations (<[pk := conversation]> (conversations created)) created,
       Return (pk, conversation))
  | Raise e => (created, Raise e)
  end.

(** [ConversationSerializer.to_representation]: the fields of the
    conversation with at most the 50 most recent messages. *)
Definition ConversationSerializer_to_representation (s : Store) (pk : Z)
    (c : Conversation) : Body :=
  let recent_messages := take 50 (Conversation_messages s pk) in
  BConversationData pk c recent_messages (last_message s pk)
    (length (Conversation_messages s pk)).

(** [ConversationListSerializer]. *)
Definition ConversationListSerializer (s : Store) (r : Z * Conversation)
  : ConversationListItem :=
  mkItem r.1 r.2 (last_message s r.1) (length (Conversation_messages s r.1)).

(** ** Views ([views.py]) *)

Definition Response_of (st : Status) (b : Body) : Response := mkResponse st b.

(** [GenericAPIView.get_object]: the row of the view's queryset with the
    primary key of the URL, or [Http404]. *)
Definition get_object {A} (queryset : list (Z * A)) (pk : Z) : Raises (Z * A) :=
  match list_find (λ r, r.1 = pk) queryset with
  | Some (_, r) => Return r
  | None => Raise Http404
  end.

Module ConversationViewSet.

(** [get_queryset]: the conversations in which the current user takes
    part, in the order of [Conversation.Meta.ordering] ([-updated_at]). *)
Definition get_queryset (s : Store) (u : Z) : list (Z * Conversation) :=
  order_by_desc (λ r, updated_at r.2)
    (filter (λ r, u ∈ participants r.2) (map_to_list (conversations s))).

(** The [list] action over [get_queryset], rendered with
    [ConversationListSerializer] ([get_serializer_class]). *)
Definition list_action (s : Store) (u : Z) : Raises (Store * Response) :=
  Return (s, Response_of HTTP_200_OK
               (BConversationList (ConversationListSerializer s <$> get_queryset s u))).

(** [create].  An exception of [serializer.save()] is not caught: it leaves
    the view after the row of the conversation is written, and the
    framework answers with a server error. *)
Definition create (s : Store) (u : Z) (clk : Clock)
    (participant_ids : option (list Z)) : Raises (Store * Response) :=
  match ConversationSerializer_create s u clk participant_ids with
  | (s', Return conversation) =>
      Return (s', Response_of HTTP_201_CREATED
                    (ConversationSerializer_to_representation s'
                       conversation.1 conversation.2))
  | (s', Raise _) =>
      Return (s', Response_of HTTP_500_INTERNAL_SERVER_ERROR BDetail)
  end.

(** [add_participant]. *)
Definition add_participant (s : Store) (u : Z) (pk : Z) (user_id : option Z)
  : Raises (Store * Response) :=
  do conversation <- get_object (get_queryset s u) pk;
  if negb (truthy user_id) then
    Return (s, Response_of HTTP_400_BAD_REQUEST (BError "user_id is required"))
  else
    match User_get s user_id with
    | Some (i, user) =>
        let c := set_participants (participants conversation.2 ∪ {[i]}) conversation.2 in
        Return (set_conversations (<[conversation.1 := c]> (conversations s)) s,
                Response_of HTTP_200_OK
                  (BMessage (String.append "User "
                     (String.append (username user) " added to conversation"))))
    | None =>
        Return (s, Response_of HTTP_404_NOT_FOUND (BError "User not found"))
    end.

(** [remove_participant]. *)
Definition remove_participant (s : Store) (u : Z) (pk : Z) (user_id : option Z)
  : Raises (Store * Response) :=
  do conversation <- get_object (get_queryset s u) pk;
  if negb (truthy user_id) then
    Return (s, Response_of HTTP_400_BAD_REQUEST (BError "user_id is required"))
  else
    match User_get s user_id with
    | Some (i, user) =>
        let c := set_participants (participants conversation.2 ∖ {[i]}) conversation.2 in
        Return (set_conversations (<[conversation.1 := c]> (conversations s)) s,
                Response_of HTTP_200_OK
                  (BMessage (String.append "User "
                     (String.append (username user) " removed from conversation"))))
    | None =>
        Return (s, Response_of HTTP_404_NOT_FOUND (BError "User not found"))
    end.

End ConversationViewSet.

Module MessageViewSet.

(** [get_queryset]: the messages of the conversations in which the
    current user takes part, narrowed to one conversation when the query
    parameter [conversation_id] is given ([None]: absent or empty; a
    query parameter is a string, so a present one is always truthy), in
    the order of [Message.Meta.ordering] ([-timestamp]). *)
Definition get_queryset (s : Store) (u : Z) (conversation_id : option Z)
  : list (Z * Message) :=
  let queryset :=
    filter (λ r, conversation_has_participant s u r.2 = true)
           (map_to_list (messages s)) in
  let queryset :=
    match conversation_id with
    | Some cid => filter (λ r, conversation r.2 = cid) queryset
    | None => queryset
    end in
  order_by_desc (λ r, timestamp r.2) queryset.

(** The [list] action over [get_queryset]. *)
Definition list_action (s : Store) (u : Z) (conversation_id : option Z)
  : Raises (Store * Response) :=
  Return (s, Response_of HTTP_200_OK (BMessageList (get_queryset s u conversation_id))).

(** [create]. *)
Definition create (s : Store) (u : Z) (clk : Clock) (d : MessageData)
  : Raises (Store * Response) :=
  let conversation_id := data_conversation d in
  let save :=
    do v <- MessageSerializer_is_valid s d;
    do r <- MessageSerializer_create s u clk v;
    let message := r.2 in
    Return (r.1, Response_of HTTP_201_CREATED
                   (BMessageData message.1 message.2)) in
  if truthy conversation_id then
    match conversation_id ≫= (λ cid, Conversation_get s cid u) with
    | Some conversation => save
    | None =>
        Return (s, Response_of HTTP_404_NOT_FOUND
                     (BError "Conversation not found or you are not a participant"))
    end
  else save.

(** [mark_as_read]; the object is looked up in [get_queryset], which
    reads the query parameter as well. *)
Definition mark_as_read (s : Store) (u : Z) (clk : Clock) (pk : Z)
    (conversation_id : option Z) : Raises (Store * Response) :=
  do message <- get_object (get_queryset s u conversation_id) pk;
  let m := set_is_read true message.2 in
  Return (Message_save (clk 0%nat) message.1 m s,
          Response_of HTTP_200_OK (BMessage "Message marked as read")).

(** [mark_conversation_as_read]: the bulk [update] writes the rows
    directly, [Message.save] is not called. *)
Definition mark_conversation_as_read (s : Store) (u : Z)
    (conversation_id : option Z) : Raises (Store * Response) :=
  if negb (truthy conversation_id) then
    Return (s, Response_of HTTP_400_BAD_REQUEST (BError "conversation_id is required"))
  else
    match conversation_id ≫= (λ cid, pair cid <$> Conversation_get s cid u) with
    | Some (cid, _) =>
        let update (m : Message) :=
          if bool_decide (conversation m = cid ∧ sender m ≠ u)
          then set_is_read true m else m in
        Return (set_messages (update <$> messages s) s,
                Response_of HTTP_200_OK
                  (BMessage "All messages in conversation marked as read"))
    | None =>
        Return (s, Response_of HTTP_404_NOT_FOUND
                     (BError "Conversation not found or you are not a participant"))
    end.

(** The [update] ([PUT]) and [partial_update] ([PATCH]) actions.
    [MessageViewSet] is a [ModelViewSet] and defines neither: they are the
    actions of the framework, which look the object up in [get_queryset],
    validate the payload with [serializer_class] and save it through
    [ModelSerializer.update]. *)
Definition update (s : Store) (u : Z) (clk : Clock) (partial : bool) (pk : Z)
    (conversation_id : option Z) (d : MessageData) : Raises (Store * Response) :=
  do instance <- get_object (get_queryset s u conversation_id) pk;
  do v <- MessageSerializer_is_valid_update s partial d;
  do r <- ModelSerializer_update s clk instance v;
  let message := r.2 in
  Return (r.1, Response_of HTTP_200_OK (BMessageData message.1 message.2)).

End MessageViewSet.

(** ** The interface *)

(** The operations of the interface table of the specification, each one
    served by the view of [views.py] named after it. *)
Inductive Request :=
  | ListConversations
  | CreateConversation (participant_ids : option (list Z))
  | AddParticipant (pk : Z) (user_id : option Z)
  | RemoveParticipant (pk : Z) (user_id : option Z)
  | ListMessages (conversation_id : option Z)
  | CreateMessage (d : MessageData)
  | MarkAsRead (pk : Z) (conversation_id : option Z)
  | MarkConversationAsRead (conversation_id : option Z).

Definition view (s : Store) (u : Z) (clk : Clock) (req : Request)
  : Raises (Store * Response) :=
  match req with
  | ListConversations => ConversationViewSet.list_action s u
  | CreateConversation ids => ConversationViewSet.create s u clk ids
  | AddParticipant pk i => ConversationViewSet.add_participant s u pk i
  | RemoveParticipant pk i => ConversationViewSet.remove_participant s u pk i
  | ListMessages q => MessageViewSet.list_action s u q
  | CreateMessage d => MessageViewSet.create s u clk d
  | MarkAsRead pk q => MessageViewSet.mark_as_read s u clk pk q
  | MarkConversationAsRead q => MessageViewSet.mark_conversation_as_read s u q
  end.

(** The framework's exception handler: [Http404] becomes a 404 response,
    a validation error a 400 response, anything else a server error.  The
    views that raise here do so before they write to the database, so the
    store is the one the request found; [ConversationViewSet.create], which
    can fail after a write, returns the store it leaves itself. *)
Definition exception_handler (s : Store) (r : Raises (Store * Response))
  : Store * Response :=
  match r with
  | Return r => r
  | Raise Http404 => (s, Response_of HTTP_404_NOT_FOUND BDetail)
  | Raise ValidationError => (s, Response_of HTTP_400_BAD_REQUEST BDetail)
  | Raise _ => (s, Response_of HTTP_500_INTERNAL_SERVER_ERROR BDetail)
  end.

(** One request of the interface, from the store it finds to the store it
    leaves and the response. *)
Definition handle (s : Store) (u : Z) (clk : Clock) (req : Request)
  : Store * Response :=
  exception_handler s (view s u clk req).

(** One generic update of a message ([partial]: [PATCH]), likewise. *)
Definition handle_update (s : Store) (u : Z) (clk : Clock) (partial : bool)
    (pk : Z) (d : MessageData) : Store * Response :=
  exception_handler s (MessageViewSet.update s u clk partial pk None d).

(** ** Observations used in the statements *)

(** The conversations a response shows. *)
Definition response_conversations (b : Body) : list (Z * Conversation) :=
  match b with
  | BConversationData pk c _ _ _ => [(pk, c)]
  | BConversationList items => (λ it, (item_id it, item_conversation it)) <$> items
  | _ => []
  end.

(** The messages a response shows. *)
Definition response_messages (b : Body) : list (Z * Message) :=
  match b with
  | BConversationData _ _ recent last _ => recent ++ option_list last
  | BConversationList items => items ≫= (λ it, option_list (item_last_message it))
  | BMessageData pk m => [(pk, m)]
  | BMessageList rows => rows
  | _ => []
  end.

(** The number of messages that are unread in [s] and read in [s']. *)
Definition flipped (s s' : Store) : nat :=
  length (filter (λ r, is_read r.2 = false
                       ∧ is_read <$> messages s' !! r.1 = Some true)
            (map_to_list (messages s))).

(** ** Well-formed stores *)

(** What the database guarantees: primary keys are positive and below the
    next value of their sequence, the sequences start at 1, and foreign keys
    (the rows of the participant relation, the sender and the conversation
    of a message) refer to existing rows. *)
Definition wf (s : Store) : Prop :=
  map_Forall (λ i _, 1 ≤ i) (users s)
  ∧ map_Forall (λ i c, 1 ≤ i < next_conversation_id s
                       ∧ participants c ⊆ dom (users s)) (conversations s)
  ∧ map_Forall (λ i m, 1 ≤ i < next_message_id s
                       ∧ is_Some (users s !! sender m)
                       ∧ is_Some (conversations s !! conversation m)) (messages s)
  ∧ 1 ≤ next_conversation_id s
  ∧ 1 ≤ next_message_id s.

#[global] Instance wf_dec s : Decision (wf s).
Proof. unfold wf. apply _. Defined.

(** A small database used in the examples: users 1, 2 and 3, one
    conversation between 1 and 2 last active at instant 10, one unread
    message of each of them. *)
Definition example_store : Store :=
  mkStore
    (<[1 := mkUser "ada" "ada@example.org" false]>
       (<[2 := mkUser "bob" "bob@example.org" false]>
          (<[3 := mkUser "cy" "cy@example.org" false]> ∅)))
    (<[1 := mkConversation {[1; 2]} 10 10]> ∅)
    (<[1 := mkMessage 1 1 "hi" 11 false]>
       (<[2 := mkMessage 2 1 "hello" 12 false]> ∅))
    2 3.

(** The same database with a second conversation, between 2 and 3, last
    active at instant 16; user 1 takes no part in it. *)
Definition two_conversations : Store :=
  mkStore (users example_store)
    (<[2 := mkConversation {[2; 3]} 15 16]> (conversations example_store))
    (messages example_store) 3 3.

(** A clock whose readings start at instant [t] and advance by one. *)
Definition clock_from (t : Time) : Clock := λ n, t + Z.of_nat n.

(** ** Further code of the application *)

(** A text cut after 50 characters, with ['...'] when something was cut:
    [obj.content[:50] + '...' if len(obj.content) > 50 else obj.content],
    the [content_preview] of [MessageAdmin] ([admin.py]). *)
Definition content_preview (content : string) : string :=
  if (50 <? String.length content)%nat
  then String.append (substring 0 50 content) "..."
  else content.

(** [Message.__str__]: the name of the sender, a colon, the first 50
    characters of the content and ['...'] when the content is longer.
    [None] stands for the sender row that cannot be fetched. *)
Definition Message_str (s : Store) (m : Message) : option string :=
  user ← users s !! sender m;
  Some (String.append (username user)
          (String.append ": "
             (String.append (substring 0 50 (content m))
                (if (50 <? String.length (content m))%nat then "..." else EmptyString)))).

(** [get_message_count] of both conversation serializers:
    [obj.messages.count()]. *)
Definition get_message_count (s : Store) (pk : Z) : nat :=
  length (Conversation_messages s pk).

(** Python truthiness of a text: the empty text is falsy. *)
Definition truthy_text (v : option string) : bool :=
  match v with
  | Some text => negb (String.eqb text EmptyString)
  | None => false
  end.

Module UserViewSet.
Section search.

(** The database's case-insensitive containment test ([icontains]): the
    column value first, the text looked for second. *)
Variable icontains : string → string → bool.

(** The columns [first_name] and [last_name] of the user table, which the
    record [User] leaves out, by primary key. *)
Variables first_name last_name : Z → string.

(** [get_queryset]: all users, narrowed by the query parameter [search]
    when it is given and not empty, without the current user. *)
Definition get_queryset (s : Store) (u : Z) (search : option string)
  : list (Z * User) :=
  let queryset := map_to_list (users s) in
  let queryset :=
    if truthy_text search then
      filter (λ r, icontains (username r.2) (default EmptyString search)
                   || icontains (email r.2) (default EmptyString search)
                   || icontains (first_name r.1) (default EmptyString search)
                   || icontains (last_name r.1) (default EmptyString search) = true)
             queryset
    else queryset in
  filter (λ r, r.1 ≠ u) queryset.

End search.
End UserViewSet.

(** A sequence of requests, each with its user and its clock: the store
    every request leaves is the store the next one finds. *)
Fixpoint run (s : Store) (trace : list (Z * Clock * Request)) : Store :=
  match trace with
  | [] => s
  | (u, clk, req) :: rest => run (handle s u clk req).1 rest
  end.

Lemma example_store_wf : wf example_store.
Proof. apply (bool_decide_unpack _). vm_compute. exact I. Qed.

(** ** Querysets *)

#[global] Instance desc_total {A} (key : A → Time) : Total (desc key).
Proof. intros a b. unfold desc. lia. Qed.

#[global] Instance desc_trans {A} (key : A → Time) : Transitive (desc key).
Proof. intros a b c. unfold desc. lia. Qed.

Section querysets.
Context (s : Store) (u : Z).

Lemma order_by_desc_elem_of {A} (key : A → Time) (rows : list A) x :
  x ∈ order_by_desc key rows ↔ x ∈ rows.
Proof. unfold order_by_desc. by rewrite merge_sort_Permutation. Qed.

Lemma order_by_desc_NoDup {A} (key : A → Time) (rows : list A) :
  NoDup rows → NoDup (order_by_desc key rows).
Proof. unfold order_by_desc. by rewrite merge_sort_Permutation. Qed.

Lemma order_by_desc_sorted {A} (key : A → Time) (rows : list A) :
  StronglySorted (desc key) (order_by_desc key rows).
Proof. apply StronglySorted_merge_sort; apply _. Qed.

Lemma conversation_queryset_spec pk c :
  (pk, c) ∈ ConversationViewSet.get_queryset s u
  ↔ conversations s !! pk = Some c ∧ u ∈ participants c.
Proof.
  unfold ConversationViewSet.get_queryset.
  rewrite order_by_desc_elem_of, list_elem_of_filter, elem_of_map_to_list.
  simpl. tauto.
Qed.

Lemma message_queryset_spec q pk m :
  (pk, m) ∈ MessageViewSet.get_queryset s u q
  ↔ messages s !! pk = Some m
    ∧ conversation_has_participant s u m = true
    ∧ (∀ cid, q = Some cid → conversation m = cid).
Proof.
  unfold MessageViewSet.get_queryset.
  rewrite order_by_desc_elem_of. destruct q as [cid|].
  - rewrite !list_elem_of_filter, elem_of_map_to_list. simpl.
    split; [intros (?&?&?); split_and!; [done..|congruence]|].
    intros (?&?&Hq); split_and!; auto.
  - rewrite list_elem_of_filter, elem_of_map_to_list. simpl.
    split; [intros (?&?); split_and!; [done..|congruence]|].
    intros (?&?&Hq); split_and!; auto.
Qed.

Lemma has_participant_spec m :
  conversation_has_participant s u m = true
  ↔ ∃ c, conversations s !! conversation m = Some c ∧ u ∈ participants c.
Proof.
  unfold conversation_has_participant.
  destruct (conversations s !! conversation m) as [c|].
  - rewrite bool_decide_eq_true. naive_solver.
  - naive_solver.
Qed.

Lemma conversation_messages_spec cid pk m :
  (pk, m) ∈ Conversation_messages s cid
  ↔ messages s !! pk = Some m ∧ conversation m = cid.
Proof.
  unfold Conversation_messages.
  rewrite order_by_desc_elem_of, list_elem_of_filter, elem_of_map_to_list.
  simpl. tauto.
Qed.

Lemma Conversation_get_Some cid c :
  Conversation_get s cid u = Some c
  ↔ conversations s !! cid = Some c ∧ u ∈ participants c.
Proof.
  unfold Conversation_get.
  destruct (conversations s !! cid) as [c'|]; simpl; [|naive_solver].
  case_bool_decide; naive_solver.
Qed.

(** [get_object] finds exactly the row of the queryset with that key
    (keys are unique in a table scan). *)
Lemma get_object_Return {A} (queryset : list (Z * A)) pk r :
  get_object queryset pk = Return r → r.1 = pk ∧ r ∈ queryset.
Proof.
  unfold get_object.
  destruct (list_find _ queryset) as [[i r']|] eqn:Hfind; [|done].
  intros [= <-]. apply list_find_Some in Hfind as (Hi & Hpk & _).
  split; [done|]. by eapply list_elem_of_lookup_2.
Qed.

Lemma get_object_Raise {A} (queryset : list (Z * A)) pk e :
  get_object queryset pk = Raise e →
  e = Http404 ∧ ∀ r, r ∈ queryset → r.1 ≠ pk.
Proof.
  unfold get_object.
  destruct (list_find _ queryset) as [[i r']|] eqn:Hfind; [done|].
  intros [= <-]. split; [done|].
  apply list_find_None in Hfind. rewrite Forall_forall in Hfind. auto.
Qed.

Lemma get_object_found {A} (queryset : list (Z * A)) pk x :
  (pk, x) ∈ queryset → (∀ y, (pk, y) ∈ queryset → y = x) →
  get_object queryset pk = Return (pk, x).
Proof.
  intros Hin Huniq. destruct (get_object queryset pk) as [r|e] eqn:Hget.
  - apply get_object_Return in Hget as [Hpk Hr].
    destruct r as [pk' x']; simpl in Hpk; subst pk'.
    by rewrite (Huniq _ Hr).
  - apply get_object_Raise in Hget as [_ Hnone].
    by destruct (Hnone _ Hin).
Qed.

Lemma conversation_get_object pk :
  get_object (ConversationViewSet.get_queryset s u) pk
  = match Conversation_get s pk u with
    | Some c => Return (pk, c)
    | None => Raise Http404
    end.
Proof.
  destruct (Conversation_get s pk u) as [c|] eqn:Hget.
  - apply Conversation_get_Some in Hget.
    apply get_object_found; [by apply conversation_queryset_spec|].
    intros y Hy%conversation_queryset_spec. destruct Hget, Hy. congruence.
  - destruct (get_object _ pk) as [[pk' c]|e] eqn:Hobj.
    + apply get_object_Return in Hobj as [Hpk Hin]. simpl in Hpk. subst pk'.
      apply conversation_queryset_spec, Conversation_get_Some in Hin.
      congruence.
    + by apply get_object_Raise in Hobj as [-> _].
Qed.

Lemma message_get_object q pk r :
  get_object (MessageViewSet.get_queryset s u q) pk = Return r →
  r.1 = pk ∧ messages s !! pk = Some r.2
  ∧ conversation_has_participant s u r.2 = true.
Proof.
  intros [Hpk Hin]%get_object_Return. destruct r as [pk' m].
  simpl in *. subst pk'.
  apply message_queryset_spec in Hin as (?&?&_). done.
Qed.

Lemma message_get_object_found q pk m :
  (pk, m) ∈ MessageViewSet.get_queryset s u q →
  get_object (MessageViewSet.get_queryset s u q) pk = Return (pk, m).
Proof.
  intros Hin. apply get_object_found; [done|].
  intros y Hy. apply message_queryset_spec in Hin as (?&_), Hy as (?&_).
  congruence.
Qed.

End querysets.

(** ** What each view does *)

Section views.
Context (s : Store) (u : Z) (clk : Clock).

Lemma wf_conversation_id pk c :
  wf s → conversations s !! pk = Some c → 1 ≤ pk < next_conversation_id s.
Proof. intros (_ & Hc & _) Hpk. by destruct (Hc _ _ Hpk). Qed.

Lemma wf_participant pk c p :
  wf s → conversations s !! pk = Some c → p ∈ participants c →
  is_Some (users s !! p).
Proof.
  intros (_ & Hc & _) Hpk Hp. destruct (Hc _ _ Hpk) as [_ Hsub].
  apply elem_of_dom. auto.
Qed.

Lemma wf_user_id i : wf s → is_Some (users s !! i) → 1 ≤ i.
Proof. intros (Hu & _) [x Hx]. exact (Hu _ _ Hx). Qed.

Lemma wf_message_id pk m :
  wf s → messages s !! pk = Some m → 1 ≤ pk < next_message_id s.
Proof. intros (_ & _ & Hm & _) Hpk. by destruct (Hm _ _ Hpk). Qed.

Lemma wf_message_sender pk m :
  wf s → messages s !! pk = Some m → is_Some (users s !! sender m).
Proof. intros (_ & _ & Hm & _) Hpk. by destruct (Hm _ _ Hpk) as (_ & ? & _). Qed.

Lemma wf_message_conversation pk m :
  wf s → messages s !! pk = Some m →
  is_Some (conversations s !! conversation m).
Proof. intros (_ & _ & Hm & _) Hpk. by destruct (Hm _ _ Hpk) as (_ & _ & ?). Qed.

Lemma truthy_Some i : truthy (Some i) = true ↔ i ≠ 0.
Proof. simpl. rewrite negb_true_iff, Z.eqb_neq. done. Qed.

Lemma truthy_positive i : 1 ≤ i → truthy (Some i) = true.
Proof. intros. apply truthy_Some. lia. Qed.

Lemma add_participant_eq pk user_id :
  handle s u clk (AddParticipant pk user_id)
  = match Conversation_get s pk u with
    | None => (s, Response_of HTTP_404_NOT_FOUND BDetail)
    | Some c =>
        if negb (truthy user_id) then
          (s, Response_of HTTP_400_BAD_REQUEST (BError "user_id is required"))
        else
          match User_get s user_id with
          | Some (i, user) =>
              (set_conversations
                 (<[pk := set_participants (participants c ∪ {[i]}) c]>
                    (conversations s)) s,
               Response_of HTTP_200_OK
                 (BMessage (String.append "User "
                    (String.append (username user) " added to conversation"))))
          | None =>
              (s, Response_of HTTP_404_NOT_FOUND (BError "User not found"))
          end
    end.
Proof.
  unfold handle, exception_handler, view, ConversationViewSet.add_participant.
  rewrite conversation_get_object.
  destruct (Conversation_get s pk u) as [c|]; simpl; [|done].
  destruct (negb (truthy user_id)); [done|].
  by destruct (User_get s user_id) as [[i user]|].
Qed.

Lemma remove_participant_eq pk user_id :
  handle s u clk (RemoveParticipant pk user_id)
  = match Conversation_get s pk u with
    | None => (s, Response_of HTTP_404_NOT_FOUND BDetail)
    | Some c =>
        if negb (truthy user_id) then
          (s, Response_of HTTP_400_BAD_REQUEST (BError "user_id is required"))
        else
          match User_get s user_id with
          | Some (i, user) =>
              (set_conversations
                 (<[pk := set_participants (participants c ∖ {[i]}) c]>
                    (conversations s)) s,
               Response_of HTTP_200_OK
                 (BMessage (String.append "User "
                    (String.append (username user) " removed from conversation"))))
          | None =>
              (s, Response_of HTTP_404_NOT_FOUND (BError "User not found"))
          end
    end.
Proof.
  unfold handle, exception_handler, view, ConversationViewSet.remove_participant.
  rewrite conversation_get_object.
  destruct (Conversation_get s pk u) as [c|]; simpl; [|done].
  destruct (negb (truthy user_id)); [done|].
  by destruct (User_get s user_id) as [[i user]|].
Qed.

(** The participants [ConversationSerializer.create] gives the new
    conversation. *)
Lemma create_conversation_eq ids :
  forallb in_range (default [] ids) = true →
  let pk := next_conversation_id s in
  let found :=
    if bool_decide (default [] ids ≠ [])
    then dom (filter (λ r, r.1 ∈ default [] ids) (users s)) else ∅ in
  let c := mkConversation (found ∪ {[u]}) (clk 0%nat) (clk 1%nat) in
  let s' := mkStore (users s) (<[pk := c]> (conversations s)) (messages s)
              (pk + 1) (next_message_id s) in
  handle s u clk (CreateConversation ids)
  = (s', Response_of HTTP_201_CREATED
           (ConversationSerializer_to_representation s' pk c)).
Proof.
  intros Hr pk found c s'.
  unfold handle, exception_handler, view, ConversationViewSet.create,
    ConversationSerializer_create, User_filter_id_in.
  rewrite Hr. subst s' c found.
  case_bool_decide; cbn; unfold set_conversations; cbn;
    rewrite insert_insert_eq; repeat f_equal; set_solver.
Qed.

(** What the same request leaves when an id of the list does not fit the
    database's integers: the conversation [Conversation.objects.create()]
    wrote, without participants, and a server error. *)
Lemma create_conversation_overflow ids :
  forallb in_range (default [] ids) = false →
  let pk := next_conversation_id s in
  let c := mkConversation ∅ (clk 0%nat) (clk 1%nat) in
  handle s u clk (CreateConversation ids)
  = (mkStore (users s) (<[pk := c]> (conversations s)) (messages s)
       (pk + 1) (next_message_id s),
     Response_of HTTP_500_INTERNAL_SERVER_ERROR BDetail).
Proof.
  intros Hr pk c.
  unfold handle, exception_handler, view, ConversationViewSet.create,
    ConversationSerializer_create, User_filter_id_in.
  rewrite Hr. case_bool_decide as Hne; [done|].
  destruct ids as [[|]|]; naive_solver.
Qed.

Lemma mark_as_read_eq pk q :
  handle s u clk (MarkAsRead pk q)
  = match get_object (MessageViewSet.get_queryset s u q) pk with
    | Return message =>
        (Message_save (clk 0%nat) message.1 (set_is_read true message.2) s,
         Response_of HTTP_200_OK (BMessage "Message marked as read"))
    | Raise _ => (s, Response_of HTTP_404_NOT_FOUND BDetail)
    end.
Proof.
  unfold handle, exception_handler, view, MessageViewSet.mark_as_read.
  destruct (get_object _ pk) as [r|e] eqn:Hobj; simpl; [done|].
  by apply get_object_Raise in Hobj as [-> _].
Qed.

Lemma mark_conversation_as_read_eq q :
  handle s u clk (MarkConversationAsRead q)
  = if negb (truthy q) then
      (s, Response_of HTTP_400_BAD_REQUEST (BError "conversation_id is required"))
    else
      match q ≫= (λ cid, pair cid <$> Conversation_get s cid u) with
      | Some (cid, _) =>
          (set_messages
             ((λ m, if bool_decide (conversation m = cid ∧ sender m ≠ u)
                    then set_is_read true m else m) <$> messages s) s,
           Response_of HTTP_200_OK
             (BMessage "All messages in conversation marked as read"))
      | None =>
          (s, Response_of HTTP_404_NOT_FOUND
                (BError "Conversation not found or you are not a participant"))
      end.
Proof.
  unfold handle, exception_handler, view, MessageViewSet.mark_conversation_as_read.
  destruct (negb (truthy q)); [done|].
  by destruct (q ≫= _) as [[cid c]|].
Qed.

(** A message is appended when the caller takes part in the conversation,
    the payload validates, and a [sender_id], if given, names a user. *)
Lemma create_message_ok d cid c text :
  wf s → Conversation_get s cid u = Some c →
  data_conversation d = Some cid → data_content d = Some text →
  (∀ i, data_sender_id d = Some i → is_Some (users s !! i)) →
  let pk := next_message_id s in
  let m := mkMessage (default u (data_sender_id d)) cid text (clk 0%nat)
             (default false (data_is_read d)) in
  handle s u clk (CreateMessage d)
  = (mkStore (users s)
       (alter (Conversation_save (clk 1%nat)) cid (conversations s))
       (<[pk := m]> (messages s)) (next_conversation_id s) (pk + 1),
     Response_of HTTP_201_CREATED (BMessageData pk m)).
Proof.
  intros Hwf Hget Hcid Htext Hsender pk m.
  pose proof Hget as [Hc Hu]%Conversation_get_Some.
  unfold handle, exception_handler, view, MessageViewSet.create.
  rewrite Hcid. rewrite truthy_positive by (eapply wf_conversation_id; eauto).
  simpl. rewrite Hget.
  unfold MessageSerializer_is_valid. rewrite Hcid, Htext.
  rewrite bool_decide_eq_true_2 by eauto. simpl.
  unfold MessageSerializer_create. simpl.
  destruct (data_sender_id d) as [i|] eqn:Hi.
  - destruct (Hsender i eq_refl) as [user Huser].
    rewrite truthy_positive by (eapply wf_user_id; eauto). simpl.
    rewrite Huser. unfold Message_objects_create. simpl.
    rewrite bool_decide_eq_true_2 by eauto. simpl.
    by subst pk m; rewrite ?Hi.
  - simpl. unfold Message_objects_create. simpl.
    rewrite bool_decide_eq_true_2 by (eapply wf_participant; eauto). simpl.
    by subst pk m; rewrite ?Hi.
Qed.

(** Whatever the payload, [create] either leaves the store alone and
    answers with an error, or appends one message to a conversation of
    the caller. *)
Lemma create_message_inv d s' r :
  wf s → handle s u clk (CreateMessage d) = (s', r) →
  (s' = s ∧ (data r = BDetail ∨ ∃ text, data r = BError text))
  ∨ ∃ cid c sid text,
      Conversation_get s cid u = Some c
      ∧ data_conversation d = Some cid
      ∧ is_Some (users s !! sid)
      ∧ let pk := next_message_id s in
        let m := mkMessage sid cid text (clk 0%nat)
                   (default false (data_is_read d)) in
        s' = mkStore (users s)
               (alter (Conversation_save (clk 1%nat)) cid (conversations s))
               (<[pk := m]> (messages s)) (next_conversation_id s) (pk + 1)
        ∧ r = Response_of HTTP_201_CREATED (BMessageData pk m).
Proof.
  intros Hwf. unfold handle, exception_handler, view, MessageViewSet.create.
  assert (Hsave : ∀ cid c,
    data_conversation d = Some cid → Conversation_get s cid u = Some c →
    match
      (do v <- MessageSerializer_is_valid s d;
       do r0 <- MessageSerializer_create s u clk v;
       Return (r0.1, Response_of HTTP_201_CREATED (BMessageData r0.2.1 r0.2.2)))
    with
    | Return r0 => r0
    | Raise Http404 => (s, Response_of HTTP_404_NOT_FOUND BDetail)
    | Raise ValidationError => (s, Response_of HTTP_400_BAD_REQUEST BDetail)
    | Raise _ => (s, Response_of HTTP_500_INTERNAL_SERVER_ERROR BDetail)
    end = (s', r) →
    (s' = s ∧ (data r = BDetail ∨ ∃ text, data r = BError text))
    ∨ ∃ cid c sid text,
        Conversation_get s cid u = Some c
        ∧ data_conversation d = Some cid
        ∧ is_Some (users s !! sid)
        ∧ s' = mkStore (users s)
                 (alter (Conversation_save (clk 1%nat)) cid (conversations s))
                 (<[next_message_id s :=
                      mkMessage sid cid text (clk 0%nat)
                        (default false (data_is_read d))]> (messages s))
                 (next_conversation_id s) (next_message_id s + 1)
          ∧ r = Response_of HTTP_201_CREATED
                  (BMessageData (next_message_id s)
                     (mkMessage sid cid text (clk 0%nat)
                        (default false (data_is_read d))))).
  { intros cid c Hcid Hget. unfold MessageSerializer_is_valid. rewrite Hcid.
    destruct (data_content d) as [text|]; simpl; [|intros [= <- <-]; left; eauto].
    case_bool_decide as Hex; simpl; [|intros [= <- <-]; left; eauto].
    unfold MessageSerializer_create, Message_objects_create. simpl.
    destruct (negb (truthy (data_sender_id d))).
    - case_bool_decide; simpl; [|intros [= <- <-]; left; eauto].
      intros [= <- <-]. right. eexists cid, c, _, text. split_and!; done.
    - destruct (data_sender_id d) as [sid|]; simpl.
      + destruct (users s !! sid) eqn:Hsid; simpl; [|intros [= <- <-]; left; eauto].
        intros [= <- <-]. right. eexists cid, c, _, text.
        split_and!; [done..|by rewrite Hsid|done|done].
      + case_bool_decide; simpl; [|intros [= <- <-]; left; eauto].
        intros [= <- <-]. right. eexists cid, c, _, text. split_and!; done. }
  destruct (data_conversation d) as [cid|] eqn:Hcid; simpl; last first.
  { unfold MessageSerializer_is_valid. rewrite Hcid. simpl.
    intros [= <- <-]. left. eauto. }
  destruct (Conversation_get s cid u) as [c|] eqn:Hget; simpl.
  { destruct (negb (cid =? 0)); by apply (Hsave cid c). }
  destruct (negb (cid =? 0)) eqn:H0.
  { intros [= <- <-]. left. simpl. eauto. }
  unfold MessageSerializer_is_valid. rewrite Hcid.
  destruct (data_content d); simpl; [|intros [= <- <-]; left; eauto].
  case_bool_decide as Hex; simpl; [|intros [= <- <-]; left; eauto].
  destruct Hex as [c Hc]. apply (wf_conversation_id _ _ Hwf) in Hc.
  apply negb_false_iff, Z.eqb_eq in H0. lia.
Qed.

End views.

(** ** The views keep the store well formed *)

Section invariant.
Context (s : Store) (u : Z) (clk : Clock).
Hypothesis Hwf : wf s.

Lemma wf_touch now cid pk m next :
  (∀ i x, messages s !! i = Some x → 1 ≤ i < next) →
  1 ≤ pk < next →
  is_Some (users s !! sender m) →
  is_Some (conversations s !! conversation m) →
  wf (mkStore (users s)
        (alter (Conversation_save now) cid (conversations s))
        (<[pk := m]> (messages s)) (next_conversation_id s) next).
Proof.
  intros Hm Hpk Hsender Hconv. destruct Hwf as (Hu & Hc & Hfk & Hnc & _).
  assert (Hdom : ∀ j, is_Some (conversations s !! j) →
                      is_Some (alter (Conversation_save now) cid (conversations s) !! j)).
  { intros j [x Hx]. rewrite lookup_alter. case_decide; [subst j|]; rewrite Hx; eauto. }
  split_and!; simpl; [done|..|done|lia].
  - intros i c. rewrite lookup_alter. case_decide as Hi; [|by apply Hc].
    subst i. destruct (conversations s !! cid) as [c0|] eqn:Hc0; [|done].
    intros [= <-]. simpl. exact (Hc _ _ Hc0).
  - intros i x. rewrite lookup_insert. case_decide as Hi.
    + subst i. intros [= <-]. simpl. split_and!; auto; lia.
    + intros Hx. simpl. destruct (Hfk _ _ Hx) as (_ & ? & ?).
      split_and!; eauto; apply (Hm _ _ Hx).
Qed.

Lemma wf_set_participants pk c ps :
  conversations s !! pk = Some c → ps ⊆ dom (users s) →
  wf (set_conversations (<[pk := set_participants ps c]> (conversations s)) s).
Proof.
  intros Hpk Hps. destruct Hwf as (Hu & Hc & Hm & Hn).
  split_and!; simpl; [done| | |tauto..].
  - apply map_Forall_insert_2; [|done].
    destruct (Hc _ _ Hpk). done.
  - intros i m Hi. destruct (Hm _ _ Hi) as (? & ? & [x Hx]).
    simpl. split; [done|]. split; [done|].
    rewrite lookup_insert. case_decide; eauto.
Qed.

Lemma wf_new_conversation ps created updated :
  ps ⊆ dom (users s) →
  wf (mkStore (users s)
        (<[next_conversation_id s := mkConversation ps created updated]>
           (conversations s))
        (messages s) (next_conversation_id s + 1) (next_message_id s)).
Proof.
  intros Hps. destruct Hwf as (Hu & Hc & Hm & Hnc & Hnm).
  split_and!; simpl; [done| | |lia|done].
  - apply map_Forall_insert_2.
    + split; [lia|done].
    + intros j c Hj. destruct (Hc _ _ Hj) as [? ?]. simpl. split; [lia|done].
  - intros i m Hi. destruct (Hm _ _ Hi) as (? & ? & [x Hx]).
    simpl. split; [done|]. split; [done|].
    rewrite lookup_insert. case_decide; eauto.
Qed.

(** Every request of an authenticated user leads from a well-formed
    store to a well-formed store. *)
Lemma wf_handle req s' r :
  is_Some (users s !! u) → handle s u clk req = (s', r) → wf s'.
Proof.
  intros Huser. destruct req as [|ids|pk i|pk i|q|d|pk q|q].
  - unfold handle, exception_handler; simpl. by intros [= <- _].
  - destruct (forallb in_range (default [] ids)) eqn:Hr.
    + rewrite create_conversation_eq by done. intros [= <- _].
      apply wf_new_conversation.
      apply union_subseteq. split; [|by apply singleton_subseteq_l, elem_of_dom].
      case_bool_decide; [apply dom_filter_subseteq|set_solver].
    + rewrite create_conversation_overflow by done. intros [= <- _].
      apply wf_new_conversation. set_solver.
  - rewrite add_participant_eq.
    destruct (Conversation_get s pk u) as [c|] eqn:Hget; [|by intros [= <- _]].
    apply Conversation_get_Some in Hget as [Hc Hin].
    destruct (negb (truthy i)); [by intros [= <- _]|].
    unfold User_get. destruct i as [i|]; simpl; [|by intros [= <- _]].
    destruct (users s !! i) eqn:Hi; simpl; [|by intros [= <- _]].
    intros [= <- _]. apply wf_set_participants; [done|].
    apply union_subseteq. split.
    + intros p Hp. apply elem_of_dom. eapply wf_participant; eauto.
    + apply singleton_subseteq_l, elem_of_dom. eauto.
  - rewrite remove_participant_eq.
    destruct (Conversation_get s pk u) as [c|] eqn:Hget; [|by intros [= <- _]].
    apply Conversation_get_Some in Hget as [Hc Hin].
    destruct (negb (truthy i)); [by intros [= <- _]|].
    unfold User_get. destruct i as [i|]; simpl; [|by intros [= <- _]].
    destruct (users s !! i) eqn:Hi; simpl; [|by intros [= <- _]].
    intros [= <- _]. apply wf_set_participants; [done|].
    intros p [Hp _]%elem_of_difference. apply elem_of_dom.
    eapply wf_participant; eauto.
  - unfold handle, exception_handler; simpl. by intros [= <- _].
  - intros Hreq.
    destruct (create_message_inv _ _ _ _ _ _ Hwf Hreq)
      as [[-> _]|(cid & c & sid & text & Hget & _ & Hsid & -> & _)]; [done|].
    apply Conversation_get_Some in Hget as [Hc _].
    destruct Hwf as (_ & _ & _ & _ & Hnm).
    apply wf_touch; simpl; [|lia|done|eauto].
    intros j m Hm. pose proof (wf_message_id _ _ _ Hwf Hm). lia.
  - rewrite mark_as_read_eq.
    destruct (get_object _ pk) as [[pk' m]|e] eqn:Hobj; [|by intros [= <- _]].
    apply message_get_object in Hobj as (Hpk & Hm & _). simpl in *. subst pk'.
    intros [= <- _]. unfold Message_save. simpl.
    apply (wf_touch _ _ _ _ (next_message_id s)); simpl.
    + intros j x Hx. eapply wf_message_id; eauto.
    + eapply wf_message_id; eauto.
    + eapply wf_message_sender; eauto.
    + eapply wf_message_conversation; eauto.
  - rewrite mark_conversation_as_read_eq.
    destruct (negb (truthy q)); [by intros [= <- _]|].
    destruct (q ≫= _) as [[cid c]|]; [|by intros [= <- _]].
    intros [= <- _]. destruct Hwf as (Hu & Hc & Hm & Hn).
    split_and!; simpl; [done..| |tauto|tauto].
    apply map_Forall_fmap. intros i m Hi. simpl.
    destruct (Hm _ _ Hi) as (? & ? & ?). by case_bool_decide.
Qed.

End invariant.

(** ** Listing conversations *)



(** ** Creating a conversation *)

Lemma resolved_participants s (L : list Z) i :
  i ∈ (if bool_decide (L ≠ [])
       then dom (filter (λ r, r.1 ∈ L) (users s)) else (∅ : gset Z))
  ↔ i ∈ L ∧ is_Some (users s !! i).
Proof.
  case_bool_decide as HL.
  - rewrite elem_of_dom. unfold is_Some.
    setoid_rewrite map_lookup_filter_Some. simpl. naive_solver.
  - subst L.
    rewrite elem_of_empty, elem_of_nil. tauto.
Qed.

(** The ids of a list fit the database's integers. *)
Lemma forallb_in_range (L : list Z) :
  Forall (λ i, - 2 ^ 63 ≤ i < 2 ^ 63) L → forallb in_range L = true.
Proof.
  induction 1 as [|i L Hi _ IH]; [done|].
  cbn [forallb]. rewrite IH, andb_true_r. unfold in_range.
  apply andb_true_intro. split; [apply Z.leb_le|apply Z.ltb_lt]; lia.
Qed.



(** ** Adding and removing participants *)

(** C9 (as amended): for a caller who takes part in the conversation and an
    existing user [v], adding [v] and then removing [v] succeeds twice and
    leaves the participant set equal to the original one without [v]: the
    original set is restored when [v] was not a participant before, and
    [v] has gone when [v] was one. *)
Theorem add_then_remove_participant
    (s : Store) (u : Z) (clk clk' : Clock) (pk : Z) (c : Conversation) (v : Z) :
  wf s → conversations s !! pk = Some c → u ∈ participants c →
  is_Some (users s !! v) →
  let r1 := handle s u clk (AddParticipant pk (Some v)) in
  let r2 := handle r1.1 u clk' (RemoveParticipant pk (Some v)) in
  status r1.2 = HTTP_200_OK
  ∧ status r2.2 = HTTP_200_OK
  ∧ conversations r2.1
    = <[pk := set_participants (participants c ∖ {[v]}) c]> (conversations s)
  ∧ (v ∉ participants c → r2.1 = s)
  ∧ (v ∈ participants c →
     participants <$> conversations r2.1 !! pk ≠ Some (participants c)).
Proof.
  intros Hwf Hc Hu [user Hv] r1 r2.
  assert (Hget : Conversation_get s pk u = Some c) by by apply Conversation_get_Some.
  assert (Htruthy : truthy (Some v) = true).
  { apply truthy_positive. eapply wf_user_id; eauto. }
  assert (Hr1 : r1 = (set_conversations
                        (<[pk := set_participants (participants c ∪ {[v]}) c]>
                           (conversations s)) s,
                      Response_of HTTP_200_OK
                        (BMessage (String.append "User "
                           (String.append (username user) " added to conversation"))))).
  { subst r1. rewrite add_participant_eq, Hget, Htruthy. simpl. by rewrite Hv. }
  assert (Hget1 : Conversation_get r1.1 pk u
                  = Some (set_participants (participants c ∪ {[v]}) c)).
  { rewrite Hr1. apply Conversation_get_Some. simpl.
    rewrite lookup_insert_eq. split; [done|]. set_solver. }
  assert (Hr2 : r2 = (set_conversations
                        (<[pk := set_participants (participants c ∖ {[v]}) c]>
                           (conversations s)) s,
                      Response_of HTTP_200_OK
                        (BMessage (String.append "User "
                           (String.append (username user) " removed from conversation"))))).
  { subst r2. rewrite remove_participant_eq, Hget1, Htruthy. simpl.
    rewrite Hr1. simpl. rewrite Hv. simpl. rewrite insert_insert_eq.
    unfold set_participants at 1. simpl.
    assert ((participants c ∪ {[v]}) ∖ {[v]} = participants c ∖ {[v]}) as ->
      by set_solver.
    done. }
  split_and!.
  - by rewrite Hr1.
  - by rewrite Hr2.
  - by rewrite Hr2.
  - intros Hnot. rewrite Hr2. simpl.
    assert (participants c ∖ {[v]} = participants c) as -> by set_solver.
    unfold set_conversations, set_participants. destruct s, c; simpl in *.
    f_equal. by apply insert_id.
  - intros Hin. rewrite Hr2. simpl. rewrite lookup_insert_eq. simpl.
    intros [= Heq]. set_solver.
Qed.

Lemma add_then_remove_participant_witness :
  let r1 := handle example_store 1 (clock_from 20) (AddParticipant 1 (Some 3)) in
  let r2 := handle r1.1 1 (clock_from 30) (RemoveParticipant 1 (Some 3)) in
  (3 ∉ participants (mkConversation {[1; 2]} 10 10)) ∧ r2.1 = example_store.
Proof.
  assert (H3 : 3 ∉ participants (mkConversation {[1; 2]} 10 10)).
  { apply (bool_decide_unpack _). vm_compute. exact I. }
  split; [exact H3|].
  refine (proj1 (proj2 (proj2 (proj2
    (add_then_remove_participant example_store 1 (clock_from 20) (clock_from 30)
       1 (mkConversation {[1; 2]} 10 10) 3 _ _ _ _)))) H3).
  - apply (bool_decide_unpack _). vm_compute. exact I.
  - reflexivity.
  - apply (bool_decide_unpack _). vm_compute. exact I.
  - apply (bool_decide_unpack _). vm_compute. exact I.
Defined.

(** Counterexample to C9 as stated: user 2 already takes part in
    conversation 1; after add and remove the set has lost user 2. *)
Lemma add_then_remove_existing_participant :
  let r1 := handle example_store 1 (clock_from 20) (AddParticipant 1 (Some 2)) in
  let r2 := handle r1.1 1 (clock_from 30) (RemoveParticipant 1 (Some 2)) in
  is_Some (users example_store !! 2)
  ∧ status r1.2 = HTTP_200_OK ∧ status r2.2 = HTTP_200_OK
  ∧ participants <$> conversations r2.1 !! 1
    ≠ participants <$> conversations example_store !! 1.
Proof.
  split_and!.
  - apply (bool_decide_unpack _). vm_compute. exact I.
  - vm_compute. reflexivity.
  - vm_compute. reflexivity.
  - apply (bool_decide_unpack _). vm_compute. exact I.
Qed.

(** ** Non-participants *)

Lemma message_queryset_non_participant s u cid c :
  conversations s !! cid = Some c → u ∉ participants c →
  MessageViewSet.get_queryset s u (Some cid) = [].
Proof.
  intros Hc Hu. apply elem_of_nil_inv. intros [pk m] Hin.
  apply message_queryset_spec in Hin as (_ & Hp & Hq).
  apply has_participant_spec in Hp as (c' & Hc' & Hin).
  rewrite (Hq cid eq_refl) in Hc'. congruence.
Qed.

Lemma create_message_refused s u clk d cid :
  cid ≠ 0 → data_conversation d = Some cid → Conversation_get s cid u = None →
  handle s u clk (CreateMessage d)
  = (s, Response_of HTTP_404_NOT_FOUND
          (BError "Conversation not found or you are not a participant")).
Proof.
  intros Hcid Hd Hget. unfold handle, exception_handler, view, MessageViewSet.create.
  rewrite Hd. rewrite (proj2 (truthy_Some cid) Hcid). simpl. by rewrite Hget.
Qed.

(** C3 (as amended): when the user does not take part in the conversation,
    appending a message fails with 404 Not Found and changes nothing, which
    is the very response given for a conversation that does not exist, and
    listing the messages of the conversation succeeds with an empty
    sequence.  Neither answer is Forbidden. *)
Theorem non_participant_append_and_list
    (s : Store) (u : Z) (clk : Clock) (cid : Z) (c : Conversation) (d : MessageData) :
  wf s → conversations s !! cid = Some c → u ∉ participants c →
  data_conversation d = Some cid →
  handle s u clk (CreateMessage d)
  = (s, Response_of HTTP_404_NOT_FOUND
          (BError "Conversation not found or you are not a participant"))
  ∧ handle s u clk (ListMessages (Some cid))
    = (s, Response_of HTTP_200_OK (BMessageList []))
  ∧ (∀ cid' d', cid' ≠ 0 → conversations s !! cid' = None →
       data_conversation d' = Some cid' →
       handle s u clk (CreateMessage d') = handle s u clk (CreateMessage d)).
Proof.
  intros Hwf Hc Hu Hd.
  assert (Hrefused : handle s u clk (CreateMessage d)
    = (s, Response_of HTTP_404_NOT_FOUND
            (BError "Conversation not found or you are not a participant"))).
  { apply (create_message_refused _ _ _ _ cid); [|done|].
    - pose proof (wf_conversation_id _ _ _ Hwf Hc). lia.
    - destruct (Conversation_get s cid u) as [c'|] eqn:Hget; [|done].
      apply Conversation_get_Some in Hget as [? ?]. congruence. }
  split_and!.
  - exact Hrefused.
  - unfold handle, exception_handler, view, MessageViewSet.list_action.
    by rewrite (message_queryset_non_participant _ _ _ _ Hc Hu).
  - intros cid' d' Hcid' Hnone Hd'. rewrite Hrefused.
    apply (create_message_refused _ _ _ _ cid'); [done..|].
    unfold Conversation_get. by rewrite Hnone.
Qed.

Lemma non_participant_append_and_list_witness :
  let d := mkMessageData None (Some 1) (Some "hey"%string) None in
  handle example_store 3 (clock_from 20) (CreateMessage d)
  = (example_store,
     Response_of HTTP_404_NOT_FOUND
       (BError "Conversation not found or you are not a participant"))
  ∧ handle example_store 3 (clock_from 20) (ListMessages (Some 1))
    = (example_store, Response_of HTTP_200_OK (BMessageList [])).
Proof.
  intros d.
  destruct (non_participant_append_and_list example_store 3 (clock_from 20) 1
              (mkConversation {[1; 2]} 10 10) d) as (H1 & H2 & _).
  - apply (bool_decide_unpack _). vm_compute. exact I.
  - reflexivity.
  - apply (bool_decide_unpack _). vm_compute. exact I.
  - reflexivity.
  - split; [exact H1|exact H2].
Defined.

(** Counterexample to C3 as stated: user 3 does not take part in
    conversation 1; the append is answered 404 and the listing 200, not
    403. *)
Lemma non_participant_not_forbidden :
  let d := mkMessageData None (Some 1) (Some "hey"%string) None in
  let r_append := (handle example_store 3 (clock_from 20) (CreateMessage d)).2 in
  let r_list := (handle example_store 3 (clock_from 20) (ListMessages (Some 1))).2 in
  (3 ∉ participants (mkConversation {[1; 2]} 10 10))
  ∧ conversations example_store !! 1 = Some (mkConversation {[1; 2]} 10 10)
  ∧ status r_append = HTTP_404_NOT_FOUND ∧ status r_append ≠ HTTP_403_FORBIDDEN
  ∧ status r_list = HTTP_200_OK ∧ status r_list ≠ HTTP_403_FORBIDDEN.
Proof.
  split_and!; try (vm_compute; reflexivity); vm_compute; discriminate.
Qed.

(** ** Marking a conversation as read *)

(** C2 (as amended): for a caller who takes part in the conversation,
    marking it as read sets [is_read] on exactly the messages of the
    conversation whose sender is not the caller, leaves every other message
    and every conversation as it was, and answers 200 with a fixed
    acknowledgement that carries no count; an immediately repeated call
    changes nothing and gives the same answer. *)
Theorem mark_conversation_as_read_effect
    (s : Store) (u : Z) (clk clk' : Clock) (cid : Z) (c : Conversation) :
  wf s → conversations s !! cid = Some c → u ∈ participants c →
  ∃ s',
    handle s u clk (MarkConversationAsRead (Some cid))
    = (s', Response_of HTTP_200_OK
             (BMessage "All messages in conversation marked as read"))
    ∧ (∀ pk, messages s' !! pk
             = (λ m, if bool_decide (conversation m = cid ∧ sender m ≠ u)
                     then set_is_read true m else m) <$> messages s !! pk)
    ∧ conversations s' = conversations s
    ∧ users s' = users s
    ∧ handle s' u clk' (MarkConversationAsRead (Some cid))
      = (s', Response_of HTTP_200_OK
               (BMessage "All messages in conversation marked as read")).
Proof.
  intros Hwf Hc Hu.
  assert (Htruthy : truthy (Some cid) = true).
  { apply truthy_positive. eapply wf_conversation_id; eauto. }
  assert (Hget : Conversation_get s cid u = Some c) by by apply Conversation_get_Some.
  eexists. split_and!.
  - rewrite mark_conversation_as_read_eq, Htruthy. simpl. rewrite Hget. simpl.
    reflexivity.
  - intros pk. simpl. apply lookup_fmap.
  - done.
  - done.
  - rewrite mark_conversation_as_read_eq, Htruthy. simpl.
    unfold Conversation_get at 1. simpl. rewrite Hc. simpl.
    rewrite bool_decide_eq_true_2 by done. simpl.
    unfold set_messages. simpl. do 2 f_equal.
    rewrite <- map_fmap_compose. apply map_fmap_ext. intros pk m _. simpl.
    destruct (bool_decide (conversation m = cid ∧ sender m ≠ u)) eqn:Hm;
      simpl; by rewrite ?Hm.
Qed.

Lemma mark_conversation_as_read_effect_witness :
  ∃ s',
    handle example_store 1 (clock_from 20) (MarkConversationAsRead (Some 1))
    = (s', Response_of HTTP_200_OK
             (BMessage "All messages in conversation marked as read"))
    ∧ is_read <$> messages s' !! 2 = Some true
    ∧ is_read <$> messages s' !! 1 = Some false.
Proof.
  destruct (mark_conversation_as_read_effect example_store 1 (clock_from 20)
              (clock_from 30) 1 (mkConversation {[1; 2]} 10 10))
    as (s' & Hs' & Hm & _).
  - apply (bool_decide_unpack _). vm_compute. exact I.
  - reflexivity.
  - apply (bool_decide_unpack _). vm_compute. exact I.
  - exists s'. split; [exact Hs'|]. rewrite !Hm. split; reflexivity.
Defined.

(** Counterexample to C2 as stated: the first call flips one message, the
    repeated call flips none, and the two answers are the same
    acknowledgement, so no count can be read from them. *)
Lemma mark_conversation_as_read_returns_no_count :
  let req := MarkConversationAsRead (Some 1) in
  let r1 := handle example_store 1 (clock_from 20) req in
  let r2 := handle r1.1 1 (clock_from 30) req in
  flipped example_store r1.1 = 1%nat
  ∧ flipped r1.1 r2.1 = 0%nat
  ∧ ¬ ∃ count_of : Response → nat,
        count_of r1.2 = flipped example_store r1.1
        ∧ count_of r2.2 = flipped r1.1 r2.1.
Proof.
  assert (H1 : flipped example_store
                 (handle example_store 1 (clock_from 20)
                    (MarkConversationAsRead (Some 1))).1 = 1%nat)
    by (vm_compute; reflexivity).
  assert (H2 : flipped
                 (handle example_store 1 (clock_from 20)
                    (MarkConversationAsRead (Some 1))).1
                 (handle (handle example_store 1 (clock_from 20)
                            (MarkConversationAsRead (Some 1))).1 1 (clock_from 30)
                    (MarkConversationAsRead (Some 1))).1 = 0%nat)
    by (vm_compute; reflexivity).
  split_and!; [exact H1|exact H2|].
  intros (count_of & Hc1 & Hc2). rewrite H1 in Hc1. rewrite H2 in Hc2.
  assert (Hsame :
    (handle (handle example_store 1 (clock_from 20)
               (MarkConversationAsRead (Some 1))).1 1 (clock_from 30)
       (MarkConversationAsRead (Some 1))).2
    = (handle example_store 1 (clock_from 20)
         (MarkConversationAsRead (Some 1))).2)
    by (vm_compute; reflexivity).
  rewrite Hsame in Hc2. congruence.
Qed.

(** ** Appending a message *)

(** C10: when the payload of an append carries a [sender_id] that names an
    existing user, the new message has that user as its sender, not the
    caller; the caller is the sender when the payload has no [sender_id]. *)
Theorem message_sender_from_payload
    (s : Store) (u : Z) (clk : Clock) (d : MessageData)
    (cid : Z) (c : Conversation) (text : string) :
  wf s → Conversation_get s cid u = Some c →
  data_conversation d = Some cid → data_content d = Some text →
  (∀ i, data_sender_id d = Some i → is_Some (users s !! i)) →
  ∃ s' pk m,
    handle s u clk (CreateMessage d)
    = (s', Response_of HTTP_201_CREATED (BMessageData pk m))
    ∧ messages s !! pk = None
    ∧ messages s' !! pk = Some m
    ∧ sender m = match data_sender_id d with
                 | Some i => i
                 | None => u
                 end.
Proof.
  intros Hwf Hget Hcid Htext Hsender.
  eexists _, _, _. split_and!.
  - by eapply create_message_ok.
  - destruct (messages s !! next_message_id s) as [m|] eqn:Hm; [|done].
    pose proof (wf_message_id _ _ _ Hwf Hm). lia.
  - simpl. apply lookup_insert_eq.
  - simpl. by destruct (data_sender_id d).
Qed.

Lemma message_sender_from_payload_witness :
  ∃ s' pk m,
    handle example_store 1 (clock_from 20)
      (CreateMessage (mkMessageData (Some 3) (Some 1) (Some "hey"%string) None))
    = (s', Response_of HTTP_201_CREATED (BMessageData pk m))
    ∧ messages example_store !! pk = None
    ∧ messages s' !! pk = Some m
    ∧ sender m = 3.
Proof.
  apply (message_sender_from_payload example_store 1 (clock_from 20)
           (mkMessageData (Some 3) (Some 1) (Some "hey"%string) None)
           1 (mkConversation {[1; 2]} 10 10) "hey"%string).
  - apply (bool_decide_unpack _). vm_compute. exact I.
  - vm_compute. reflexivity.
  - reflexivity.
  - reflexivity.
  - intros i [= <-]. apply (bool_decide_unpack _). vm_compute. exact I.
Defined.

(** C5 (as amended): a successful append stamps the message with the first
    clock reading and sets the conversation's [updated_at] to the clock
    reading taken when the conversation is saved right after it.  The
    assignment is unconditional: [updated_at] does not move backward when
    that reading is not older than the current value, it moves backward to
    the reading when the reading is older, and only a reading equal to the
    current value leaves the conversation as it was. *)
Theorem append_sets_last_activity
    (s : Store) (u : Z) (clk : Clock) (d : MessageData)
    (cid : Z) (c : Conversation) (text : string) :
  wf s → Conversation_get s cid u = Some c →
  data_conversation d = Some cid → data_content d = Some text →
  (∀ i, data_sender_id d = Some i → is_Some (users s !! i)) →
  ∃ s' pk m c',
    handle s u clk (CreateMessage d)
    = (s', Response_of HTTP_201_CREATED (BMessageData pk m))
    ∧ timestamp m = clk 0%nat
    ∧ conversations s' !! cid = Some c'
    ∧ c' = Conversation_save (clk 1%nat) c
    ∧ updated_at c' = clk 1%nat
    ∧ (updated_at c ≤ clk 1%nat → updated_at c ≤ updated_at c')
    ∧ (clk 1%nat < updated_at c → updated_at c' < updated_at c)
    ∧ (clk 1%nat = updated_at c → c' = c).
Proof.
  intros Hwf Hget Hcid Htext Hsender.
  pose proof Hget as [Hc _]%Conversation_get_Some.
  eexists _, _, _, _. split_and!.
  - by eapply create_message_ok.
  - done.
  - simpl. rewrite lookup_alter_eq, Hc. done.
  - done.
  - done.
  - simpl. done.
  - simpl. done.
  - simpl. intros ->. by destruct c.
Qed.

Lemma append_sets_last_activity_witness :
  ∃ s' pk m c',
    handle example_store 1 (clock_from 20)
      (CreateMessage (mkMessageData None (Some 1) (Some "hey"%string) None))
    = (s', Response_of HTTP_201_CREATED (BMessageData pk m))
    ∧ timestamp m = 20
    ∧ conversations s' !! 1 = Some c'
    ∧ updated_at c' = 21.
Proof.
  destruct (append_sets_last_activity example_store 1 (clock_from 20)
              (mkMessageData None (Some 1) (Some "hey"%string) None)
              1 (mkConversation {[1; 2]} 10 10) "hey"%string)
    as (s' & pk & m & c' & H1 & H2 & H3 & _ & H5 & _).
  - apply (bool_decide_unpack _). vm_compute. exact I.
  - vm_compute. reflexivity.
  - reflexivity.
  - reflexivity.
  - intros i [=].
  - exists s', pk, m, c'. split_and!; [exact H1|exact H2|exact H3|exact H5].
Defined.

(** Counterexample to C5 as stated: conversation 1 was last active at
    instant 10; an append while the clock reads 5 and 6 leaves it at 6. *)
Lemma append_moves_last_activity_backward :
  let d := mkMessageData None (Some 1) (Some "late"%string) None in
  let r := handle example_store 1 (clock_from 5) (CreateMessage d) in
  status r.2 = HTTP_201_CREATED
  ∧ updated_at <$> conversations example_store !! 1 = Some 10
  ∧ updated_at <$> conversations r.1 !! 1 = Some 6
  ∧ 6 < 10.
Proof. split_and!; vm_compute; reflexivity. Qed.

(** ** Marking one message as read *)

(** [mark_as_read] on a message the caller can see: the flag is set and,
    since [Message.save] runs, the conversation is stamped once more. *)
Lemma mark_as_read_visible s u clk q pk m :
  (pk, m) ∈ MessageViewSet.get_queryset s u q →
  handle s u clk (MarkAsRead pk q)
  = (mkStore (users s)
       (alter (Conversation_save (clk 0%nat)) (conversation m) (conversations s))
       (<[pk := set_is_read true m]> (messages s))
       (next_conversation_id s) (next_message_id s),
     Response_of HTTP_200_OK (BMessage "Message marked as read")).
Proof.
  intros Hin. rewrite mark_as_read_eq.
  by rewrite (message_get_object_found _ _ _ _ _ Hin).
Qed.

(** C4 (the code departs from the claim): user 1 marks message 2 as read
    while the clock reads 20; the conversation of the message, last active
    at instant 10, is now stamped 20.  Marking the whole conversation as
    read leaves the stamp alone. *)
Theorem mark_as_read_touches_conversation :
  let r := handle example_store 1 (clock_from 20) (MarkAsRead 2 None) in
  let r' := handle example_store 1 (clock_from 20) (MarkConversationAsRead (Some 1)) in
  status r.2 = HTTP_200_OK
  ∧ is_read <$> messages r.1 !! 2 = Some true
  ∧ updated_at <$> conversations example_store !! 1 = Some 10
  ∧ updated_at <$> conversations r.1 !! 1 = Some 20
  ∧ updated_at <$> conversations r'.1 !! 1 = Some 10.
Proof. split_and!; vm_compute; reflexivity. Qed.

(** ** Participation and access *)

Lemma last_message_spec s cid pk m :
  last_message s cid = Some (pk, m) →
  messages s !! pk = Some m ∧ conversation m = cid.
Proof.
  unfold last_message. intros Hhead%head_Some_elem_of.
  by apply conversation_messages_spec.
Qed.

Lemma elem_of_option_list {A} (o : option A) (x : A) :
  x ∈ option_list o ↔ o = Some x.
Proof.
  destruct o as [y|]; simpl.
  - rewrite list_elem_of_singleton. split; congruence.
  - rewrite elem_of_nil. split; [tauto|congruence].
Qed.

Ltac same_store := intros [= <- <-]; simpl; try done.

(** The two outcomes of creating a conversation. *)
Ltac create_conversation_cases ids :=
  destruct (forallb in_range (default [] ids)) eqn:?;
  [rewrite create_conversation_eq by done
  |rewrite create_conversation_overflow by done].

Section scoping.
Context (s : Store) (u : Z) (clk : Clock).
Hypothesis Hwf : wf s.

(** Rows outside the caller's conversations are left as they were. *)
Lemma handle_frame req s' r :
  handle s u clk req = (s', r) →
  (∀ pk c, conversations s !! pk = Some c → u ∉ participants c →
           conversations s' !! pk = Some c)
  ∧ (∀ pk m, messages s !! pk = Some m →
             conversation_has_participant s u m = false →
             messages s' !! pk = Some m).
Proof.
  destruct req as [|ids|pk0 i|pk0 i|q|d|pk0 q|q].
  - unfold handle, exception_handler; simpl. by same_store.
  - create_conversation_cases ids; same_store; (split; [|done]);
      intros pk c Hc _; (rewrite lookup_insert_ne; [done|]);
      pose proof (wf_conversation_id _ _ _ Hwf Hc); lia.
  - rewrite add_participant_eq.
    destruct (Conversation_get s pk0 u) as [c0|] eqn:Hget; [|by same_store].
    apply Conversation_get_Some in Hget as [Hc0 Hin].
    destruct (negb (truthy i)); [by same_store|].
    destruct (User_get s i) as [[j user]|]; [|by same_store].
    same_store. split; [|done]. intros pk c Hc Hu.
    rewrite lookup_insert_ne; [done|]. intros ->. congruence.
  - rewrite remove_participant_eq.
    destruct (Conversation_get s pk0 u) as [c0|] eqn:Hget; [|by same_store].
    apply Conversation_get_Some in Hget as [Hc0 Hin].
    destruct (negb (truthy i)); [by same_store|].
    destruct (User_get s i) as [[j user]|]; [|by same_store].
    same_store. split; [|done]. intros pk c Hc Hu.
    rewrite lookup_insert_ne; [done|]. intros ->. congruence.
  - unfold handle, exception_handler; simpl. by same_store.
  - intros Hreq.
    destruct (create_message_inv _ _ _ _ _ _ Hwf Hreq)
      as [[-> _]|(cid & c0 & sid & text & Hget & _ & _ & -> & _)]; [done|].
    apply Conversation_get_Some in Hget as [Hc0 Hin]. simpl. split.
    + intros pk c Hc Hu. rewrite lookup_alter_ne; [done|]. intros ->. congruence.
    + intros pk m Hm _. rewrite lookup_insert_ne; [done|].
      pose proof (wf_message_id _ _ _ Hwf Hm). lia.
  - rewrite mark_as_read_eq.
    destruct (get_object _ pk0) as [[pk' m0]|e] eqn:Hobj; [|by same_store].
    apply message_get_object in Hobj as (Hpk & Hm0 & Hvis). simpl in *. subst pk'.
    same_store. split.
    + intros pk c Hc Hu. rewrite lookup_alter_ne; [done|]. intros <-.
      unfold conversation_has_participant in Hvis. rewrite Hc in Hvis.
      by apply bool_decide_eq_true in Hvis.
    + intros pk m Hm Hinv. rewrite lookup_insert_ne; [done|]. intros ->.
      congruence.
  - rewrite mark_conversation_as_read_eq.
    destruct (negb (truthy q)); [by same_store|].
    destruct q as [cid|]; simpl; [|by same_store].
    destruct (Conversation_get s cid u) as [c0|] eqn:Hget; simpl; [|by same_store].
    apply Conversation_get_Some in Hget as [Hc0 Hin].
    same_store. split; [done|]. intros pk m Hm Hinv.
    rewrite lookup_fmap, Hm. simpl. case_bool_decide as Hcase; [|done].
    destruct Hcase as [Hcid _]. unfold conversation_has_participant in Hinv.
    rewrite Hcid, Hc0 in Hinv. by rewrite bool_decide_eq_true_2 in Hinv.
Qed.

(** Rows that a request creates belong to the caller's conversations; the
    one exception is the conversation without participants that a creation
    leaves when it fails after its first write. *)
Lemma handle_new_rows req s' r :
  handle s u clk req = (s', r) →
  (∀ pk c, conversations s !! pk = None → conversations s' !! pk = Some c →
           u ∈ participants c ∨ participants c = ∅)
  ∧ (∀ pk m, messages s !! pk = None → messages s' !! pk = Some m →
             conversation_has_participant s' u m = true).
Proof.
  destruct req as [|ids|pk0 i|pk0 i|q|d|pk0 q|q].
  - unfold handle, exception_handler; simpl. same_store. split; congruence.
  - create_conversation_cases ids; same_store; (split; [|congruence]);
      intros pk c Hnone; rewrite lookup_insert; (case_decide; [|congruence]);
      intros [= <-]; simpl; [left; set_solver|by right].
  - rewrite add_participant_eq.
    destruct (Conversation_get s pk0 u) as [c0|] eqn:Hget;
      [|same_store; split; congruence].
    apply Conversation_get_Some in Hget as [Hc0 Hin].
    destruct (negb (truthy i)); [same_store; split; congruence|].
    destruct (User_get s i) as [[j user]|]; [|same_store; split; congruence].
    same_store. split; [|congruence]. intros pk c Hnone.
    rewrite lookup_insert. case_decide; congruence.
  - rewrite remove_participant_eq.
    destruct (Conversation_get s pk0 u) as [c0|] eqn:Hget;
      [|same_store; split; congruence].
    apply Conversation_get_Some in Hget as [Hc0 Hin].
    destruct (negb (truthy i)); [same_store; split; congruence|].
    destruct (User_get s i) as [[j user]|]; [|same_store; split; congruence].
    same_store. split; [|congruence]. intros pk c Hnone.
    rewrite lookup_insert. case_decide; congruence.
  - unfold handle, exception_handler; simpl. same_store. split; congruence.
  - intros Hreq.
    destruct (create_message_inv _ _ _ _ _ _ Hwf Hreq)
      as [[-> _]|(cid & c0 & sid & text & Hget & _ & _ & -> & _)];
      [split; congruence|].
    apply Conversation_get_Some in Hget as [Hc0 Hin]. simpl. split.
    + intros pk c Hnone. rewrite lookup_alter. case_decide; [|congruence].
      subst pk. by rewrite Hnone.
    + intros pk m Hnone. rewrite lookup_insert. case_decide; [|congruence].
      intros [= <-]. unfold conversation_has_participant. simpl.
      rewrite lookup_alter_eq, Hc0. simpl. by apply bool_decide_eq_true.
  - rewrite mark_as_read_eq.
    destruct (get_object _ pk0) as [[pk' m0]|e] eqn:Hobj;
      [|same_store; split; congruence].
    apply message_get_object in Hobj as (Hpk & Hm0 & Hvis). simpl in *. subst pk'.
    same_store. split.
    + intros pk c Hnone. rewrite lookup_alter. case_decide; [|congruence].
      subst pk. by rewrite Hnone.
    + intros pk m Hnone. rewrite lookup_insert. case_decide; congruence.
  - rewrite mark_conversation_as_read_eq.
    destruct (negb (truthy q)); [same_store; split; congruence|].
    destruct (q ≫= _) as [[cid c0]|]; [|same_store; split; congruence].
    same_store. split; [congruence|]. intros pk m Hnone.
    by rewrite lookup_fmap, Hnone.
Qed.

(** What a response shows belongs to the caller's conversations. *)
Lemma handle_observe req s' r :
  handle s u clk req = (s', r) →
  (∀ pk c, (pk, c) ∈ response_conversations (data r) →
           conversations s' !! pk = Some c ∧ u ∈ participants c)
  ∧ (∀ pk m, (pk, m) ∈ response_messages (data r) →
             messages s' !! pk = Some m
             ∧ conversation_has_participant s' u m = true).
Proof.
  destruct req as [|ids|pk0 i|pk0 i|q|d|pk0 q|q].
  - unfold handle, exception_handler; simpl. same_store. split.
    + intros pk c (it & [= -> ->] & (row & -> & Hrow)%list_elem_of_fmap)%list_elem_of_fmap.
      destruct row as [pk c]. by apply conversation_queryset_spec.
    + intros pk m (it & Hlast & (row & -> & Hrow)%list_elem_of_fmap)%list_elem_of_bind.
      destruct row as [cid c]. simpl in Hlast.
      apply elem_of_option_list, last_message_spec in Hlast as [Hm Hcid].
      split; [done|]. apply has_participant_spec. rewrite Hcid.
      exists c. by apply conversation_queryset_spec.
  - create_conversation_cases ids;
      [|same_store; split; intros ?? []%elem_of_nil].
    same_store. split.
    + intros pk c [= -> ->]%list_elem_of_singleton. rewrite lookup_insert_eq.
      split; [done|]. simpl. set_solver.
    + intros pk m Hin.
      match type of Hin with
      | _ ∈ take _ (Conversation_messages ?t ?k) ++ _ =>
          assert (Hrow : (pk, m) ∈ Conversation_messages t k)
      end.
      { apply elem_of_app in Hin as [Htake|Hlast].
        - apply elem_of_take in Htake as (n & Hn & _).
          by eapply list_elem_of_lookup_2.
        - by apply elem_of_option_list, head_Some_elem_of in Hlast. }
      apply conversation_messages_spec in Hrow as [Hm Hcid]. simpl in Hm.
      split; [done|]. unfold conversation_has_participant. simpl.
      rewrite Hcid, lookup_insert_eq. apply bool_decide_eq_true. simpl.
      set_solver.
  - rewrite add_participant_eq.
    destruct (Conversation_get s pk0 u) as [c0|];
      [|same_store; split; intros ?? []%elem_of_nil].
    destruct (negb (truthy i)); [same_store; split; intros ?? []%elem_of_nil|].
    destruct (User_get s i) as [[j user]|];
      same_store; split; intros ?? []%elem_of_nil.
  - rewrite remove_participant_eq.
    destruct (Conversation_get s pk0 u) as [c0|];
      [|same_store; split; intros ?? []%elem_of_nil].
    destruct (negb (truthy i)); [same_store; split; intros ?? []%elem_of_nil|].
    destruct (User_get s i) as [[j user]|];
      same_store; split; intros ?? []%elem_of_nil.
  - unfold handle, exception_handler; simpl. same_store. split; [intros ?? []%elem_of_nil|].
    intros pk m (Hm & Hvis & _)%message_queryset_spec. done.
  - intros Hreq.
    destruct (create_message_inv _ _ _ _ _ _ Hwf Hreq)
      as [[-> Herr]|(cid & c0 & sid & text & Hget & _ & _ & -> & ->)].
    + destruct Herr as [->|[text ->]]; split; intros ?? []%elem_of_nil.
    + apply Conversation_get_Some in Hget as [Hc0 Hin]. simpl.
      split; [intros ?? []%elem_of_nil|].
      intros pk m [= -> ->]%list_elem_of_singleton. rewrite lookup_insert_eq.
      split; [done|]. unfold conversation_has_participant. simpl.
      rewrite lookup_alter_eq, Hc0. simpl. by apply bool_decide_eq_true.
  - rewrite mark_as_read_eq.
    destruct (get_object _ pk0) as [[pk' m0]|e];
      same_store; split; intros ?? []%elem_of_nil.
  - rewrite mark_conversation_as_read_eq.
    destruct (negb (truthy q)); [same_store; split; intros ?? []%elem_of_nil|].
    destruct (q ≫= _) as [[cid c0]|];
      same_store; split; intros ?? []%elem_of_nil.
Qed.

End scoping.

(** The operations of the interface are scoped by participation: the
    conversation listing contains only conversations in which the user
    takes part and the message listing only messages of such conversations;
    whatever the request, the response shows only such conversations and
    messages, every conversation without the user and every message of such
    a conversation is left as it was, and the rows the request creates
    belong to conversations of the user, or are a conversation in which
    nobody takes part (what a creation leaves when it fails after its first
    write). *)
Lemma interface_operations_scoped
    (s : Store) (u : Z) (clk : Clock) (req : Request) (s' : Store) (r : Response) :
  wf s → handle s u clk req = (s', r) →
  (∀ pk c, (pk, c) ∈ ConversationViewSet.get_queryset s u →
           conversations s !! pk = Some c ∧ u ∈ participants c)
  ∧ (∀ q pk m, (pk, m) ∈ MessageViewSet.get_queryset s u q →
       messages s !! pk = Some m
       ∧ ∃ c, conversations s !! conversation m = Some c ∧ u ∈ participants c)
  ∧ (∀ pk c, (pk, c) ∈ response_conversations (data r) →
             conversations s' !! pk = Some c ∧ u ∈ participants c)
  ∧ (∀ pk m, (pk, m) ∈ response_messages (data r) →
       messages s' !! pk = Some m
       ∧ ∃ c, conversations s' !! conversation m = Some c ∧ u ∈ participants c)
  ∧ (∀ pk c, conversations s !! pk = Some c → u ∉ participants c →
             conversations s' !! pk = Some c)
  ∧ (∀ pk m c, messages s !! pk = Some m →
       conversations s !! conversation m = Some c → u ∉ participants c →
       messages s' !! pk = Some m)
  ∧ (∀ pk c, conversations s !! pk = None → conversations s' !! pk = Some c →
             u ∈ participants c ∨ participants c = ∅)
  ∧ (∀ pk m, messages s !! pk = None → messages s' !! pk = Some m →
       ∃ c, conversations s' !! conversation m = Some c ∧ u ∈ participants c).
Proof.
  intros Hwf Hreq.
  destruct (handle_frame _ _ _ Hwf _ _ _ Hreq) as [Hfc Hfm].
  destruct (handle_new_rows _ _ _ Hwf _ _ _ Hreq) as [Hnc Hnm].
  destruct (handle_observe _ _ _ Hwf _ _ _ Hreq) as [Hoc Hom].
  split_and!.
  - intros pk c. apply conversation_queryset_spec.
  - intros q pk m (Hm & Hvis & _)%message_queryset_spec.
    split; [done|]. by apply has_participant_spec.
  - exact Hoc.
  - intros pk m Hin. destruct (Hom _ _ Hin) as [Hm Hvis].
    split; [done|]. by apply has_participant_spec.
  - exact Hfc.
  - intros pk m c Hm Hc Hu. apply Hfm; [done|].
    unfold conversation_has_participant. rewrite Hc.
    by apply bool_decide_eq_false.
  - exact Hnc.
  - intros pk m Hnone Hm. apply has_participant_spec. eauto.
Qed.

(** The generic update of a message the caller can see, with a payload
    that holds nothing but [is_read]. *)
Lemma update_is_read_eq s u clk pk m b :
  wf s → (pk, m) ∈ MessageViewSet.get_queryset s u None →
  handle_update s u clk true pk (mkMessageData None None None (Some b))
  = (Message_save (clk 0%nat) pk (set_is_read b m) s,
     Response_of HTTP_200_OK (BMessageData pk (set_is_read b m))).
Proof.
  intros Hwf Hin. unfold handle_update, MessageViewSet.update.
  rewrite (message_get_object_found _ _ _ _ _ Hin). simpl.
  unfold ModelSerializer_update. simpl.
  apply message_queryset_spec in Hin as (Hm & _).
  rewrite bool_decide_eq_true_2 by (eapply wf_message_sender; eauto).
  done.
Qed.

(** C1 (the code departs from the claim): user 1 takes part in
    conversation 1 only.  Appending to conversation 2 is refused, but the
    generic update of message 1, which user 1 can see, accepts
    [conversation = 2]: the message now belongs to conversation 2 and that
    conversation, last active at instant 16, is stamped 20. *)
Theorem update_moves_message_into_foreign_conversation :
  let r := handle_update two_conversations 1 (clock_from 20) true 1
             (mkMessageData None (Some 2) None None) in
  let r' := handle two_conversations 1 (clock_from 20)
              (CreateMessage (mkMessageData None (Some 2) (Some "hey"%string) None)) in
  wf two_conversations
  ∧ participants <$> conversations two_conversations !! 2 = Some {[2; 3]}
  ∧ Conversation_get two_conversations 2 1 = None
  ∧ status r'.2 = HTTP_404_NOT_FOUND
  ∧ status r.2 = HTTP_200_OK
  ∧ updated_at <$> conversations two_conversations !! 2 = Some 16
  ∧ updated_at <$> conversations r.1 !! 2 = Some 20
  ∧ conversation <$> messages two_conversations !! 1 = Some 1
  ∧ conversation <$> messages r.1 !! 1 = Some 2.
Proof.
  split_and!; try (vm_compute; reflexivity).
  apply (bool_decide_unpack _). vm_compute. exact I.
Qed.

(** ** The read flag *)

Lemma set_is_read_id m : is_read m = true → set_is_read true m = m.
Proof. destruct m; simpl; by intros ->. Qed.

(** C6 (as amended): no operation of the interface moves a message from
    read back to unread: after any request an existing message is unchanged
    or has gone from unread to read, and marking as read a message that is
    already read succeeds and leaves every message as it was.  The flag is
    a writable field of the message serializer, though: the generic update
    of a message the caller can see sets it to the value of the payload,
    whichever it is. *)
Theorem is_read_only_moves_forward
    (s : Store) (u : Z) (clk : Clock) (req : Request) (s' : Store) (r : Response)
    (pk : Z) (m : Message) :
  wf s → handle s u clk req = (s', r) → messages s !! pk = Some m →
  (messages s' !! pk = Some m
   ∨ (is_read m = false ∧ messages s' !! pk = Some (set_is_read true m)))
  ∧ (∀ q, req = MarkAsRead pk q →
          (pk, m) ∈ MessageViewSet.get_queryset s u q → is_read m = true →
          status r = HTTP_200_OK ∧ messages s' = messages s)
  ∧ (∀ b, (pk, m) ∈ MessageViewSet.get_queryset s u None →
          let r' := handle_update s u clk true pk
                      (mkMessageData None None None (Some b)) in
          status r'.2 = HTTP_200_OK
          ∧ messages r'.1 !! pk = Some (set_is_read b m)).
Proof.
  intros Hwf Hreq Hm. split_and!.
  - destruct req as [|ids|pk0 i|pk0 i|q|d|pk0 q|q].
    + revert Hreq. unfold handle, exception_handler; simpl. same_store. by left.
    + revert Hreq. create_conversation_cases ids; same_store; by left.
    + revert Hreq. rewrite add_participant_eq.
      destruct (Conversation_get s pk0 u) as [c0|]; [|same_store; by left].
      destruct (negb (truthy i)); [same_store; by left|].
      destruct (User_get s i) as [[j user]|]; same_store; by left.
    + revert Hreq. rewrite remove_participant_eq.
      destruct (Conversation_get s pk0 u) as [c0|]; [|same_store; by left].
      destruct (negb (truthy i)); [same_store; by left|].
      destruct (User_get s i) as [[j user]|]; same_store; by left.
    + revert Hreq. unfold handle, exception_handler; simpl. same_store. by left.
    + destruct (create_message_inv _ _ _ _ _ _ Hwf Hreq)
        as [[-> _]|(cid & c0 & sid & text & _ & _ & _ & -> & _)]; [by left|].
      left. simpl. rewrite lookup_insert_ne; [done|].
      pose proof (wf_message_id _ _ _ Hwf Hm). lia.
    + revert Hreq. rewrite mark_as_read_eq.
      destruct (get_object _ pk0) as [[pk' m0]|e] eqn:Hobj; [|same_store; by left].
      apply message_get_object in Hobj as (Hpk & Hm0 & _). simpl in *. subst pk'.
      same_store. rewrite lookup_insert. case_decide as Hpk; [|by left].
      subst pk0. assert (m0 = m) as -> by congruence.
      destruct (is_read m) eqn:Hread.
      * left. by rewrite set_is_read_id.
      * right. done.
    + revert Hreq. rewrite mark_conversation_as_read_eq.
      destruct (negb (truthy q)); [same_store; by left|].
      destruct (q ≫= _) as [[cid c0]|]; [|same_store; by left].
      same_store. rewrite lookup_fmap, Hm. simpl.
      case_bool_decide; [|by left].
      destruct (is_read m) eqn:Hread.
      * left. by rewrite set_is_read_id.
      * right. done.
  - intros q -> Hin Hread. revert Hreq.
    rewrite (mark_as_read_visible _ _ _ _ _ _ Hin). same_store.
    split; [done|]. rewrite set_is_read_id by done. by apply insert_id.
  - intros b Hin r'. subst r'. rewrite (update_is_read_eq _ _ _ _ _ _ Hwf Hin).
    simpl. split; [done|]. apply lookup_insert_eq.
Qed.

Lemma is_read_only_moves_forward_witness :
  messages
    (handle example_store 1 (clock_from 20) (MarkAsRead 2 None)).1 !! 2
  = Some (mkMessage 2 1 "hello" 12 true).
Proof.
  destruct (is_read_only_moves_forward example_store 1 (clock_from 20)
              (MarkAsRead 2 None)
              (handle example_store 1 (clock_from 20) (MarkAsRead 2 None)).1
              (handle example_store 1 (clock_from 20) (MarkAsRead 2 None)).2
              2 (mkMessage 2 1 "hello" 12 false)) as [[Hsame|[_ Hflip]] _].
  - apply (bool_decide_unpack _). vm_compute. exact I.
  - apply surjective_pairing.
  - reflexivity.
  - exfalso. revert Hsame. vm_compute. discriminate.
  - exact Hflip.
Defined.

(** Counterexample to C6 as stated: message 2 has been marked as read; a
    partial update of the message with [is_read = false] is accepted and
    the message is unread again. *)
Lemma update_moves_read_back_to_unread :
  let s1 := (handle example_store 1 (clock_from 20) (MarkAsRead 2 None)).1 in
  let r := handle_update s1 1 (clock_from 30) true 2
             (mkMessageData None None None (Some false)) in
  is_read <$> messages s1 !! 2 = Some true
  ∧ status r.2 = HTTP_200_OK
  ∧ is_read <$> messages r.1 !! 2 = Some false.
Proof. split_and!; vm_compute; reflexivity. Qed.

(** * Further properties of the views *)

(** ** Participants *)

Lemma User_get_Some s user_id v user :
  User_get s user_id = Some (v, user) ↔ user_id = Some v ∧ users s !! v = Some user.
Proof.
  unfold User_get. destruct user_id as [i|]; simpl; [|naive_solver].
  destruct (users s !! i) eqn:Hi; simpl; naive_solver.
Qed.

Lemma User_get_None s user_id :
  User_get s user_id = None ↔ ∀ v, user_id = Some v → users s !! v = None.
Proof.
  unfold User_get. destruct user_id as [i|]; simpl; [|naive_solver].
  destruct (users s !! i) eqn:Hi; simpl; naive_solver.
Qed.

(** X1: adding or removing a participant succeeds exactly when the caller
    takes part in the conversation and [user_id] names an existing user;
    in every other case the store is left as it was. *)
Theorem participant_operations_succeed_iff
    (s : Store) (u : Z) (clk : Clock) (pk : Z) (user_id : option Z) :
  wf s →
  let ra := handle s u clk (AddParticipant pk user_id) in
  let rr := handle s u clk (RemoveParticipant pk user_id) in
  let allowed :=
    ∃ c v, conversations s !! pk = Some c ∧ u ∈ participants c
           ∧ user_id = Some v ∧ is_Some (users s !! v) in
  (status ra.2 = HTTP_200_OK ↔ allowed)
  ∧ (status rr.2 = HTTP_200_OK ↔ allowed)
  ∧ (¬ allowed → ra.1 = s ∧ rr.1 = s).
Proof.
  intros Hwf ra rr allowed. subst ra rr.
  rewrite add_participant_eq, remove_participant_eq.
  destruct (Conversation_get s pk u) as [c|] eqn:Hget.
  - apply Conversation_get_Some in Hget as [Hc Hu].
    destruct (negb (truthy user_id)) eqn:Htruthy.
    { assert (¬ allowed) as Hno.
      { intros (c' & v & _ & _ & -> & Hv).
        rewrite truthy_positive in Htruthy by (eapply wf_user_id; eauto). done. }
      simpl. split_and!; [split; [done|tauto]..|done]. }
    destruct (User_get s user_id) as [[v user]|] eqn:Huser.
    + apply User_get_Some in Huser as [-> Hv].
      assert allowed as Hyes by (exists c, v; eauto).
      simpl. split_and!; [done..|tauto].
    + assert (¬ allowed) as Hno.
      { intros (c' & v & _ & _ & -> & [user Hv]).
        rewrite (proj1 (User_get_None _ _) Huser v eq_refl) in Hv. done. }
      simpl. split_and!; [split; [done|tauto]..|done].
  - assert (¬ allowed) as Hno.
    { intros (c' & v & Hc & Hu & _).
      rewrite (proj2 (Conversation_get_Some _ _ _ _) (conj Hc Hu)) in Hget. done. }
    simpl. split_and!; [split; [done|tauto]..|done].
Qed.

Lemma participant_operations_succeed_iff_witness :
  (handle example_store 1 (clock_from 20) (AddParticipant 1 (Some 7))).1
  = example_store.
Proof.
  refine (proj1 (proj2 (proj2
    (participant_operations_succeed_iff example_store 1 (clock_from 20) 1 (Some 7) _)) _)).
  - apply (bool_decide_unpack _). vm_compute. exact I.
  - intros (c & v & _ & _ & [= <-] & Hv). revert Hv. vm_compute.
    intros [x Hx]. discriminate.
Defined.

(** X2: adding a user who already takes part in the conversation is
    answered 200 and leaves the store as it was. *)
Theorem add_participant_again
    (s : Store) (u : Z) (clk : Clock) (pk : Z) (c : Conversation) (v : Z) :
  wf s → conversations s !! pk = Some c → u ∈ participants c →
  v ∈ participants c →
  ∃ user,
    users s !! v = Some user
    ∧ handle s u clk (AddParticipant pk (Some v))
      = (s, Response_of HTTP_200_OK
              (BMessage (String.append "User "
                 (String.append (username user) " added to conversation")))).
Proof.
  intros Hwf Hc Hu Hv.
  destruct (wf_participant _ _ _ _ Hwf Hc Hv) as [user Huser].
  exists user. split; [done|].
  rewrite add_participant_eq.
  rewrite (proj2 (Conversation_get_Some _ _ _ _) (conj Hc Hu)).
  rewrite truthy_positive by (eapply wf_user_id; eauto). cbn [negb].
  rewrite (proj2 (User_get_Some _ _ _ _) (conj eq_refl Huser)).
  f_equal. assert (participants c ∪ {[v]} = participants c) as -> by set_solver.
  unfold set_conversations, set_participants. destruct s, c; simpl in *.
  f_equal. by apply insert_id.
Qed.

Lemma add_participant_again_witness :
  ∃ user,
    users example_store !! 2 = Some user
    ∧ handle example_store 1 (clock_from 20) (AddParticipant 1 (Some 2))
      = (example_store,
         Response_of HTTP_200_OK
           (BMessage (String.append "User "
              (String.append (username user) " added to conversation")))).
Proof.
  apply (add_participant_again example_store 1 (clock_from 20) 1
           (mkConversation {[1; 2]} 10 10) 2).
  - apply (bool_decide_unpack _). vm_compute. exact I.
  - reflexivity.
  - apply (bool_decide_unpack _). vm_compute. exact I.
  - apply (bool_decide_unpack _). vm_compute. exact I.
Defined.

(** X3: removing an existing user who does not take part in the
    conversation is answered 200 and leaves the store as it was. *)
Theorem remove_non_participant
    (s : Store) (u : Z) (clk : Clock) (pk : Z) (c : Conversation)
    (v : Z) (user : User) :
  wf s → conversations s !! pk = Some c → u ∈ participants c →
  users s !! v = Some user → v ∉ participants c →
  handle s u clk (RemoveParticipant pk (Some v))
  = (s, Response_of HTTP_200_OK
          (BMessage (String.append "User "
             (String.append (username user) " removed from conversation")))).
Proof.
  intros Hwf Hc Hu Huser Hv.
  rewrite remove_participant_eq.
  rewrite (proj2 (Conversation_get_Some _ _ _ _) (conj Hc Hu)).
  rewrite truthy_positive by (eapply wf_user_id; eauto). cbn [negb].
  rewrite (proj2 (User_get_Some _ _ _ _) (conj eq_refl Huser)).
  f_equal. assert (participants c ∖ {[v]} = participants c) as -> by set_solver.
  unfold set_conversations, set_participants. destruct s, c; simpl in *.
  f_equal. by apply insert_id.
Qed.

Lemma remove_non_participant_witness :
  handle example_store 1 (clock_from 20) (RemoveParticipant 1 (Some 3))
  = (example_store,
     Response_of HTTP_200_OK (BMessage "User cy removed from conversation")).
Proof.
  apply (remove_non_participant example_store 1 (clock_from 20) 1
           (mkConversation {[1; 2]} 10 10) 3
           (mkUser "cy" "cy@example.org" false)).
  - apply (bool_decide_unpack _). vm_compute. exact I.
  - reflexivity.
  - apply (bool_decide_unpack _). vm_compute. exact I.
  - reflexivity.
  - apply (bool_decide_unpack _). vm_compute. exact I.
Defined.

Lemma add_participant_ok s u clk pk c v user :
  wf s → conversations s !! pk = Some c → u ∈ participants c →
  users s !! v = Some user →
  handle s u clk (AddParticipant pk (Some v))
  = (set_conversations
       (<[pk := set_participants (participants c ∪ {[v]}) c]> (conversations s)) s,
     Response_of HTTP_200_OK
       (BMessage (String.append "User "
          (String.append (username user) " added to conversation")))).
Proof.
  intros Hwf Hc Hu Huser. rewrite add_participant_eq.
  rewrite (proj2 (Conversation_get_Some _ _ _ _) (conj Hc Hu)).
  rewrite truthy_positive by (eapply wf_user_id; eauto). cbn [negb].
  by rewrite (proj2 (User_get_Some _ _ _ _) (conj eq_refl Huser)).
Qed.

Lemma remove_participant_ok s u clk pk c v user :
  wf s → conversations s !! pk = Some c → u ∈ participants c →
  users s !! v = Some user →
  handle s u clk (RemoveParticipant pk (Some v))
  = (set_conversations
       (<[pk := set_participants (participants c ∖ {[v]}) c]> (conversations s)) s,
     Response_of HTTP_200_OK
       (BMessage (String.append "User "
          (String.append (username user) " removed from conversation")))).
Proof.
  intros Hwf Hc Hu Huser. rewrite remove_participant_eq.
  rewrite (proj2 (Conversation_get_Some _ _ _ _) (conj Hc Hu)).
  rewrite truthy_positive by (eapply wf_user_id; eauto). cbn [negb].
  by rewrite (proj2 (User_get_Some _ _ _ _) (conj eq_refl Huser)).
Qed.

(** X4: once a user has been added, the conversation is in that user's
    listing, with the same last-activity stamp as before, and the user's
    message listing for the conversation holds exactly the messages of the
    conversation, the ones sent before the user joined included. *)
Theorem add_participant_grants_access
    (s : Store) (u : Z) (clk : Clock) (pk : Z) (c : Conversation) (v : Z) :
  wf s → conversations s !! pk = Some c → u ∈ participants c →
  is_Some (users s !! v) →
  let s' := (handle s u clk (AddParticipant pk (Some v))).1 in
  (∃ c', (pk, c') ∈ ConversationViewSet.get_queryset s' v
         ∧ participants c' = participants c ∪ {[v]}
         ∧ updated_at c' = updated_at c)
  ∧ (∀ i m, (i, m) ∈ MessageViewSet.get_queryset s' v (Some pk)
            ↔ messages s !! i = Some m ∧ conversation m = pk).
Proof.
  intros Hwf Hc Hu [user Huser] s'. subst s'.
  rewrite (add_participant_ok _ _ _ _ _ _ _ Hwf Hc Hu Huser). cbn [fst].
  set (c1 := set_participants (participants c ∪ {[v]}) c).
  assert (Hc1 : conversations
                  (set_conversations (<[pk := c1]> (conversations s)) s) !! pk
                = Some c1) by apply lookup_insert_eq.
  assert (Hv : v ∈ participants c1) by (subst c1; cbn; set_solver).
  split.
  - exists c1. split_and!; [|done..]. by apply conversation_queryset_spec.
  - intros i m. rewrite message_queryset_spec. split.
    + intros (Hm & _ & Hq). split; [done|]. by apply Hq.
    + intros [Hm Hpk]. split_and!; [done| |by intros ? [= <-]].
      apply has_participant_spec. rewrite Hpk. eauto.
Qed.

Lemma add_participant_grants_access_witness :
  ∃ c', (1, c') ∈ ConversationViewSet.get_queryset
                    (handle example_store 1 (clock_from 20)
                       (AddParticipant 1 (Some 3))).1 3
        ∧ participants c' = {[1; 2]} ∪ {[3]}
        ∧ updated_at c' = 10.
Proof.
  refine (proj1 (add_participant_grants_access example_store 1 (clock_from 20) 1
                   (mkConversation {[1; 2]} 10 10) 3 _ _ _ _)).
  - apply (bool_decide_unpack _). vm_compute. exact I.
  - reflexivity.
  - apply (bool_decide_unpack _). vm_compute. exact I.
  - apply (bool_decide_unpack _). vm_compute. exact I.
Defined.

(** X5: once a user has been removed (by another participant or by
    themselves), the conversation is no longer in that user's listing, the
    user's message listing for the conversation is empty, the user can no
    longer add a participant to it, and no message has been deleted. *)
Theorem remove_participant_revokes_access
    (s : Store) (u : Z) (clk clk' : Clock) (pk : Z) (c : Conversation) (v : Z) :
  wf s → conversations s !! pk = Some c → u ∈ participants c →
  is_Some (users s !! v) →
  let s' := (handle s u clk (RemoveParticipant pk (Some v))).1 in
  (∀ c', (pk, c') ∉ ConversationViewSet.get_queryset s' v)
  ∧ MessageViewSet.get_queryset s' v (Some pk) = []
  ∧ (∀ user_id, handle s' v clk' (AddParticipant pk user_id)
                = (s', Response_of HTTP_404_NOT_FOUND BDetail))
  ∧ messages s' = messages s.
Proof.
  intros Hwf Hc Hu [user Huser] s'. subst s'.
  rewrite (remove_participant_ok _ _ _ _ _ _ _ Hwf Hc Hu Huser). cbn [fst].
  set (s' := set_conversations _ s).
  assert (Hc' : conversations s' !! pk
                = Some (set_participants (participants c ∖ {[v]}) c))
    by apply lookup_insert_eq.
  assert (Hv : v ∉ participants (set_participants (participants c ∖ {[v]}) c))
    by (cbn; set_solver).
  split_and!.
  - intros c' [Hin Hvin]%conversation_queryset_spec.
    rewrite Hc' in Hin. injection Hin as <-. done.
  - by eapply message_queryset_non_participant.
  - intros user_id. rewrite add_participant_eq.
    destruct (Conversation_get s' pk v) as [c'|] eqn:Hget; [|done].
    apply Conversation_get_Some in Hget as [Hin Hvin].
    rewrite Hc' in Hin. injection Hin as <-. done.
  - done.
Qed.

Lemma remove_participant_revokes_access_witness :
  MessageViewSet.get_queryset
    (handle example_store 1 (clock_from 20) (RemoveParticipant 1 (Some 1))).1
    1 (Some 1) = [].
Proof.
  refine (proj1 (proj2
    (remove_participant_revokes_access example_store 1 (clock_from 20)
       (clock_from 30) 1 (mkConversation {[1; 2]} 10 10) 1 _ _ _ _))).
  - apply (bool_decide_unpack _). vm_compute. exact I.
  - reflexivity.
  - apply (bool_decide_unpack _). vm_compute. exact I.
  - apply (bool_decide_unpack _). vm_compute. exact I.
Defined.

(** ** Listing messages *)

Lemma message_queryset_NoDup s u q :
  NoDup (MessageViewSet.get_queryset s u q).*1.
Proof.
  apply NoDup_fmap_fst.
  - intros pk m1 m2 [H1 _]%message_queryset_spec [H2 _]%message_queryset_spec.
    congruence.
  - unfold MessageViewSet.get_queryset. apply order_by_desc_NoDup.
    destruct q; repeat apply NoDup_filter; apply NoDup_map_to_list.
Qed.

(** X6: the list-messages operation returns exactly the messages of the
    conversations in which the user takes part, narrowed to one
    conversation when [conversation_id] is given, each once, newest
    first. *)
Theorem list_messages_exact_and_ordered
    (s : Store) (u : Z) (clk : Clock) (q : option Z) :
  let queryset := MessageViewSet.get_queryset s u q in
  handle s u clk (ListMessages q)
  = (s, Response_of HTTP_200_OK (BMessageList queryset))
  ∧ (∀ pk m, (pk, m) ∈ queryset
             ↔ messages s !! pk = Some m
               ∧ (∃ c, conversations s !! conversation m = Some c
                       ∧ u ∈ participants c)
               ∧ (∀ cid, q = Some cid → conversation m = cid))
  ∧ NoDup queryset.*1
  ∧ StronglySorted (λ a b, timestamp b.2 ≤ timestamp a.2) queryset.
Proof.
  intros queryset. split_and!.
  - reflexivity.
  - intros pk m. subst queryset.
    by rewrite message_queryset_spec, has_participant_spec.
  - apply message_queryset_NoDup.
  - apply (order_by_desc_sorted (λ r : Z * Message, timestamp r.2)).
Qed.

(** ** Messages of a conversation *)

Lemma conversation_messages_sorted s pk :
  StronglySorted (λ a b, timestamp b.2 ≤ timestamp a.2) (Conversation_messages s pk).
Proof. apply (order_by_desc_sorted (λ r : Z * Message, timestamp r.2)). Qed.

Lemma conversation_messages_NoDup s pk : NoDup (Conversation_messages s pk).*1.
Proof.
  apply NoDup_fmap_fst.
  - intros i m1 m2 [H1 _]%conversation_messages_spec
      [H2 _]%conversation_messages_spec. congruence.
  - apply order_by_desc_NoDup, NoDup_filter, NoDup_map_to_list.
Qed.

Lemma length_filter_map_to_list {A} (P : Z * A → Prop) `{!∀ x, Decision (P x)}
    (m : gmap Z A) :
  length (filter P (map_to_list m)) = size (filter P m).
Proof.
  rewrite <- length_map_to_list. apply Permutation_length, NoDup_Permutation.
  - apply NoDup_filter, NoDup_map_to_list.
  - apply NoDup_map_to_list.
  - intros [i x]. rewrite list_elem_of_filter, !elem_of_map_to_list.
    rewrite map_lookup_filter_Some. tauto.
Qed.

Lemma get_message_count_size s pk :
  get_message_count s pk
  = size (filter (λ r, conversation r.2 = pk) (messages s)).
Proof.
  unfold get_message_count, Conversation_messages, order_by_desc.
  rewrite merge_sort_Permutation. apply length_filter_map_to_list.
Qed.

(** X7: [last_message] is empty exactly when the conversation has no
    message; otherwise it is a message of the conversation and no message
    of the conversation is newer. *)
Theorem last_message_is_newest (s : Store) (pk : Z) :
  (last_message s pk = None
   ↔ ∀ i m, messages s !! i = Some m → conversation m ≠ pk)
  ∧ (∀ i m, last_message s pk = Some (i, m) →
       messages s !! i = Some m ∧ conversation m = pk
       ∧ ∀ j m', messages s !! j = Some m' → conversation m' = pk →
                 timestamp m' ≤ timestamp m).
Proof.
  unfold last_message. split.
  - rewrite head_None. split.
    + intros Hnil i m Hm Hpk.
      assert ((i, m) ∈ Conversation_messages s pk) as Hin
        by by apply conversation_messages_spec.
      rewrite Hnil in Hin. by apply elem_of_nil in Hin.
    + intros Hnone. apply elem_of_nil_inv. intros [i m] Hin.
      apply conversation_messages_spec in Hin as [Hm Hpk]. by eapply Hnone.
  - intros i m Hhead.
    pose proof (head_Some_elem_of _ _ Hhead) as Hin.
    apply conversation_messages_spec in Hin as [Hm Hpk].
    split_and!; [done..|]. intros j m' Hm' Hpk'.
    assert ((j, m') ∈ Conversation_messages s pk) as Hin'
      by by apply conversation_messages_spec.
    pose proof (conversation_messages_sorted s pk) as Hsorted.
    destruct (Conversation_messages s pk) as [|r rest]; [done|].
    injection Hhead as ->.
    apply elem_of_cons in Hin' as [[= -> ->]|Hrest]; [done|].
    apply StronglySorted_inv in Hsorted as [_ Hall].
    rewrite Forall_forall in Hall. exact (Hall _ Hrest).
Qed.

(** X8: the representation of a conversation shows at most 50 messages,
    all of them messages of the conversation, newest first, and none of
    the messages left out is newer than one that is shown; the message
    count is the number of all messages of the conversation. *)
Theorem representation_shows_newest_50 (s : Store) (pk : Z) (c : Conversation) :
  ∃ recent last,
    ConversationSerializer_to_representation s pk c
    = BConversationData pk c recent last (get_message_count s pk)
    ∧ last = last_message s pk
    ∧ get_message_count s pk
      = size (filter (λ r, conversation r.2 = pk) (messages s))
    ∧ length recent = (50 `min` get_message_count s pk)%nat
    ∧ NoDup recent.*1
    ∧ StronglySorted (λ a b, timestamp b.2 ≤ timestamp a.2) recent
    ∧ (∀ i m, (i, m) ∈ recent → messages s !! i = Some m ∧ conversation m = pk)
    ∧ (∀ i m j m', (i, m) ∈ recent → messages s !! j = Some m' →
         conversation m' = pk → (j, m') ∉ recent →
         timestamp m' ≤ timestamp m).
Proof.
  eexists _, _. split; [reflexivity|].
  pose proof (conversation_messages_sorted s pk) as Hsorted.
  pose proof (conversation_messages_NoDup s pk) as Hnodup.
  set (l := Conversation_messages s pk) in *.
  rewrite <- (take_drop 50 l) in Hsorted, Hnodup.
  split_and!.
  - done.
  - apply get_message_count_size.
  - unfold get_message_count. apply length_take.
  - rewrite fmap_app in Hnodup. by apply NoDup_app in Hnodup as (? & _ & _).
  - by apply StronglySorted_app_1_l in Hsorted.
  - intros i m Hin. apply conversation_messages_spec. fold l.
    rewrite <- (take_drop 50 l). apply elem_of_app. by left.
  - intros i m j m' Hin Hm' Hpk Hout.
    assert ((j, m') ∈ l) as Hl by by apply conversation_messages_spec.
    rewrite <- (take_drop 50 l) in Hl. apply elem_of_app in Hl as [?|Hdrop]; [done|].
    exact (StronglySorted_app_1_elem_of _ _ _ _ _ Hsorted Hin Hdrop).
Qed.

(** ** A new conversation *)

Lemma conversation_messages_fresh s pk :
  wf s → next_conversation_id s ≤ pk → Conversation_messages s pk = [].
Proof.
  intros Hwf Hpk. apply elem_of_nil_inv. intros [i m] Hin.
  apply conversation_messages_spec in Hin as [Hm Hc].
  destruct (wf_message_conversation _ _ _ Hwf Hm) as [c Hconv].
  pose proof (wf_conversation_id _ _ _ Hwf Hconv). lia.
Qed.

(** X9: a new conversation gets a key no conversation had, leaves the
    other conversations, the messages and the users as they were, is shown
    with no message, no last message and a message count of zero, and is
    from then on in the listing of its creator and of every existing user
    named in [participant_ids], and of nobody else. *)
Theorem new_conversation_is_fresh_and_empty
    (s : Store) (u : Z) (clk : Clock) (ids : option (list Z)) :
  wf s →
  Forall (λ i, - 2 ^ 63 ≤ i < 2 ^ 63) (default [] ids) →
  let pk := next_conversation_id s in
  let r := handle s u clk (CreateConversation ids) in
  conversations s !! pk = None
  ∧ (∀ i, i ≠ pk → conversations r.1 !! i = conversations s !! i)
  ∧ messages r.1 = messages s
  ∧ users r.1 = users s
  ∧ (∃ c, r.2 = Response_of HTTP_201_CREATED (BConversationData pk c [] None 0)
          ∧ created_at c = clk 0%nat ∧ updated_at c = clk 1%nat)
  ∧ (∀ v, (∃ c, (pk, c) ∈ ConversationViewSet.get_queryset r.1 v)
          ↔ v = u ∨ (v ∈ default [] ids ∧ is_Some (users s !! v))).
Proof.
  intros Hwf Hids pk r. subst r.
  rewrite create_conversation_eq by by apply forallb_in_range.
  cbn [fst snd]. fold pk. set (c := mkConversation _ _ _). set (s' := mkStore _ _ _ _ _).
  assert (Hnone : conversations s !! pk = None).
  { destruct (conversations s !! pk) as [c0|] eqn:Hc0; [|done].
    pose proof (wf_conversation_id _ _ _ Hwf Hc0). subst pk. lia. }
  assert (Hempty : Conversation_messages s' pk = []).
  { change (Conversation_messages s' pk) with (Conversation_messages s pk).
    apply conversation_messages_fresh; [done|]. subst pk. lia. }
  split_and!.
  - done.
  - intros i Hi. subst s'. simpl. by rewrite lookup_insert_ne.
  - done.
  - done.
  - exists c. split; [|done].
    unfold ConversationSerializer_to_representation, last_message.
    by rewrite Hempty.
  - intros v. split.
    + intros (c' & [Hc' Hv]%conversation_queryset_spec).
      subst s'. simpl in Hc'. rewrite lookup_insert_eq in Hc'.
      injection Hc' as <-. subst c. cbn in Hv.
      apply elem_of_union in Hv as [Hv|Hv].
      * right. by apply resolved_participants in Hv.
      * left. by apply elem_of_singleton in Hv.
    + intros Hv. exists c. apply conversation_queryset_spec. split.
      * subst s'. simpl. apply lookup_insert_eq.
      * subst c. cbn. apply elem_of_union. destruct Hv as [->|Hv].
        -- right. by apply elem_of_singleton.
        -- left. by apply resolved_participants.
Qed.

Lemma new_conversation_is_fresh_and_empty_witness :
  ∃ c, (handle example_store 3 (clock_from 20) (CreateConversation (Some [2; 7]))).2
       = Response_of HTTP_201_CREATED (BConversationData 2 c [] None 0)
       ∧ created_at c = 20 ∧ updated_at c = 21.
Proof.
  refine (proj1 (proj2 (proj2 (proj2 (proj2
    (new_conversation_is_fresh_and_empty example_store 3 (clock_from 20)
       (Some [2; 7]) _ _)))))).
  - apply (bool_decide_unpack _). vm_compute. exact I.
  - repeat constructor; lia.
Defined.

Lemma forallb_in_range_false (L : list Z) (i : Z) :
  i ∈ L → ¬ (- 2 ^ 63 ≤ i < 2 ^ 63) → forallb in_range L = false.
Proof.
  intros Hin Hi. induction Hin as [i L|i j L _ IH]; cbn [forallb].
  - apply andb_false_intro1. unfold in_range.
    destruct (Z.leb_spec (- 2 ^ 63) i); [|done].
    destruct (Z.ltb_spec i (2 ^ 63)); [lia|done].
  - apply andb_false_intro2. by apply IH.
Qed.

(** X20: when an id of [participant_ids] is outside the integers the
    database holds (signed, 64 bits), creating a conversation is answered
    with a server error after the conversation has been written: the next
    key now holds a conversation without any participant, not even the
    creator, which no listing shows; every other conversation, the messages
    and the users are as they were. *)
Theorem create_conversation_out_of_range
    (s : Store) (u : Z) (clk : Clock) (L : list Z) (i : Z) :
  wf s → i ∈ L → ¬ (- 2 ^ 63 ≤ i < 2 ^ 63) →
  let pk := next_conversation_id s in
  let r := handle s u clk (CreateConversation (Some L)) in
  r.2 = Response_of HTTP_500_INTERNAL_SERVER_ERROR BDetail
  ∧ conversations s !! pk = None
  ∧ conversations r.1 !! pk = Some (mkConversation ∅ (clk 0%nat) (clk 1%nat))
  ∧ (∀ j, j ≠ pk → conversations r.1 !! j = conversations s !! j)
  ∧ messages r.1 = messages s
  ∧ users r.1 = users s
  ∧ (∀ v c, (pk, c) ∉ ConversationViewSet.get_queryset r.1 v).
Proof.
  intros Hwf Hin Hi pk r. subst r.
  rewrite create_conversation_overflow
    by (by apply (forallb_in_range_false _ i)).
  cbn [fst snd]. fold pk. split_and!.
  - done.
  - destruct (conversations s !! pk) as [c0|] eqn:Hc0; [|done].
    pose proof (wf_conversation_id _ _ _ Hwf Hc0). subst pk. lia.
  - simpl. apply lookup_insert_eq.
  - intros j Hj. simpl. by rewrite lookup_insert_ne.
  - done.
  - done.
  - intros v c [Hc Hv]%conversation_queryset_spec.
    simpl in Hc. rewrite lookup_insert_eq in Hc. injection Hc as <-.
    simpl in Hv. set_solver.
Qed.

Lemma create_conversation_out_of_range_witness :
  let r := handle example_store 3 (clock_from 20)
             (CreateConversation (Some [2; 2 ^ 63])) in
  r.2 = Response_of HTTP_500_INTERNAL_SERVER_ERROR BDetail
  ∧ conversations example_store !! 2 = None
  ∧ conversations r.1 !! 2 = Some (mkConversation ∅ 20 21).
Proof.
  pose proof (create_conversation_out_of_range example_store 3 (clock_from 20)
                [2; 2 ^ 63] (2 ^ 63)) as H.
  cbv zeta in H. cbv zeta.
  destruct H as (H1 & H2 & H3 & _).
  - apply (bool_decide_unpack _). vm_compute. exact I.
  - set_solver.
  - lia.
  - split_and!; [exact H1|exact H2|exact H3].
Defined.

(** ** More on appending *)

Lemma message_count_insert s cid pk m cs nc nm :
  messages s !! pk = None →
  get_message_count
    (mkStore (users s) cs (<[pk := m]> (messages s)) nc nm) cid
  = if bool_decide (conversation m = cid)
    then S (get_message_count s cid) else get_message_count s cid.
Proof.
  intros Hnone. rewrite !get_message_count_size. simpl.
  case_bool_decide as Hc.
  - rewrite map_filter_insert_True by done.
    rewrite map_size_insert_None; [done|].
    apply map_lookup_filter_None. by left.
  - rewrite map_filter_insert_False by done.
    by rewrite delete_id.
Qed.

(** X10: a successful append adds one message to the conversation and to
    no other, under a key no message had; the message carries the content
    of the payload and is unread unless the payload says otherwise; every
    other message is as it was; and the new message is in the message
    listing of exactly the participants of the conversation. *)
Theorem append_extends_conversation
    (s : Store) (u : Z) (clk : Clock) (d : MessageData)
    (cid : Z) (c : Conversation) (text : string) :
  wf s → Conversation_get s cid u = Some c →
  data_conversation d = Some cid → data_content d = Some text →
  (∀ i, data_sender_id d = Some i → is_Some (users s !! i)) →
  let r := handle s u clk (CreateMessage d) in
  let pk := next_message_id s in
  messages s !! pk = None
  ∧ get_message_count r.1 cid = S (get_message_count s cid)
  ∧ (∀ cid', cid' ≠ cid → get_message_count r.1 cid' = get_message_count s cid')
  ∧ (∀ i, i ≠ pk → messages r.1 !! i = messages s !! i)
  ∧ (∃ m, messages r.1 !! pk = Some m ∧ conversation m = cid
          ∧ content m = text ∧ timestamp m = clk 0%nat
          ∧ is_read m = default false (data_is_read d))
  ∧ (∀ v, (∃ m, (pk, m) ∈ MessageViewSet.get_queryset r.1 v None)
          ↔ v ∈ participants c).
Proof.
  intros Hwf Hget Hcid Htext Hsender r pk. subst r.
  rewrite (create_message_ok _ _ _ _ _ _ _ Hwf Hget Hcid Htext Hsender).
  cbn [fst]. fold pk.
  apply Conversation_get_Some in Hget as [Hc Hu].
  assert (Hnone : messages s !! pk = None).
  { destruct (messages s !! pk) as [m|] eqn:Hm; [|done].
    pose proof (wf_message_id _ _ _ Hwf Hm). subst pk. lia. }
  split_and!.
  - done.
  - rewrite message_count_insert by done. simpl. by rewrite bool_decide_eq_true_2.
  - intros cid' Hne. rewrite message_count_insert by done. simpl.
    by rewrite bool_decide_eq_false_2.
  - intros i Hi. simpl. by rewrite lookup_insert_ne.
  - eexists. simpl. rewrite lookup_insert_eq. split_and!; reflexivity.
  - intros v. split.
    + intros (m & (Hm & Hvis & _)%message_queryset_spec).
      simpl in Hm. rewrite lookup_insert_eq in Hm. injection Hm as <-.
      apply has_participant_spec in Hvis as (c' & Hc' & Hv). simpl in Hc'.
      rewrite lookup_alter_eq, Hc in Hc'. injection Hc' as <-. done.
    + intros Hv. eexists. apply message_queryset_spec. simpl.
      rewrite lookup_insert_eq. split_and!; [reflexivity| |done].
      apply has_participant_spec. simpl. rewrite lookup_alter_eq, Hc.
      eexists. split; [reflexivity|done].
Qed.

Lemma append_extends_conversation_witness :
  get_message_count
    (handle example_store 1 (clock_from 20)
       (CreateMessage (mkMessageData None (Some 1) (Some "hey"%string) None))).1 1
  = S (get_message_count example_store 1).
Proof.
  refine (proj1 (proj2
    (append_extends_conversation example_store 1 (clock_from 20)
       (mkMessageData None (Some 1) (Some "hey"%string) None)
       1 (mkConversation {[1; 2]} 10 10) "hey"%string _ _ _ _ _))).
  - apply (bool_decide_unpack _). vm_compute. exact I.
  - vm_compute. reflexivity.
  - reflexivity.
  - reflexivity.
  - intros i [=].
Defined.

#[global] Instance Conversation_eq_dec : EqDecision Conversation.
Proof. solve_decision. Defined.

#[global] Instance Message_eq_dec : EqDecision Message.
Proof.
  intros [s1 c1 t1 ts1 r1] [s2 c2 t2 ts2 r2].
  destruct (decide (s1 = s2)); [|right; congruence].
  destruct (decide (c1 = c2)); [|right; congruence].
  destruct (String.string_dec t1 t2); [|right; congruence].
  destruct (decide (ts1 = ts2)); [|right; congruence].
  destruct (decide (r1 = r2)); [|right; congruence].
  left. congruence.
Defined.

Lemma head_of_order_by_desc `{EqDecision A} (key : A → Time) (rows : list A) (x : A) :
  x ∈ rows → (∀ y, y ∈ rows → y ≠ x → key y < key x) →
  head (order_by_desc key rows) = Some x.
Proof.
  intros Hin Hmax.
  pose proof (order_by_desc_sorted key rows) as Hsorted.
  apply (order_by_desc_elem_of key) in Hin.
  assert (Hmax' : ∀ y, y ∈ order_by_desc key rows → y ≠ x → key y < key x).
  { intros y Hy. apply Hmax. by apply (order_by_desc_elem_of key). }
  destruct (order_by_desc key rows) as [|h rest]; [by apply elem_of_nil in Hin|].
  simpl. f_equal. apply elem_of_cons in Hin as [->|Hrest]; [done|].
  apply StronglySorted_inv in Hsorted as [_ Hall].
  rewrite Forall_forall in Hall. specialize (Hall _ Hrest). unfold desc in Hall.
  destruct (decide (h = x)) as [->|Hne]; [done|].
  specialize (Hmax' h (list_elem_of_here _ _) Hne). lia.
Qed.

(** X11: when the clock reading of the save is later than the stamp of
    every other conversation, a successful append puts the conversation
    first in the conversation listing of each of its participants. *)
Theorem append_moves_conversation_to_front
    (s : Store) (u : Z) (clk : Clock) (d : MessageData)
    (cid : Z) (c : Conversation) (text : string) (v : Z) :
  wf s → Conversation_get s cid u = Some c →
  data_conversation d = Some cid → data_content d = Some text →
  (∀ i, data_sender_id d = Some i → is_Some (users s !! i)) →
  (∀ i c', conversations s !! i = Some c' → i ≠ cid → updated_at c' < clk 1%nat) →
  v ∈ participants c →
  head (ConversationViewSet.get_queryset
          (handle s u clk (CreateMessage d)).1 v)
  = Some (cid, Conversation_save (clk 1%nat) c).
Proof.
  intros Hwf Hget Hcid Htext Hsender Hlater Hv.
  rewrite (create_message_ok _ _ _ _ _ _ _ Hwf Hget Hcid Htext Hsender).
  cbn [fst]. apply Conversation_get_Some in Hget as [Hc Hu].
  unfold ConversationViewSet.get_queryset.
  apply (head_of_order_by_desc (λ r : Z * Conversation, updated_at r.2)).
  - apply list_elem_of_filter. split; [done|].
    apply elem_of_map_to_list. simpl. by rewrite lookup_alter_eq, Hc.
  - intros [i c'] [_ Hin]%list_elem_of_filter Hne.
    apply elem_of_map_to_list in Hin. simpl in Hin.
    rewrite lookup_alter in Hin. case_decide as Hi.
    + subst i. rewrite Hc in Hin. simpl in Hin. congruence.
    + simpl. by eapply Hlater.
Qed.

Lemma append_moves_conversation_to_front_witness :
  head (ConversationViewSet.get_queryset
          (handle two_conversations 1 (clock_from 20)
             (CreateMessage (mkMessageData None (Some 1) (Some "hey"%string) None))).1
          2)
  = Some (1, Conversation_save 21 (mkConversation {[1; 2]} 10 10)).
Proof.
  apply (append_moves_conversation_to_front two_conversations 1 (clock_from 20)
           (mkMessageData None (Some 1) (Some "hey"%string) None)
           1 (mkConversation {[1; 2]} 10 10) "hey"%string 2).
  - apply (bool_decide_unpack _). vm_compute. exact I.
  - vm_compute. reflexivity.
  - reflexivity.
  - reflexivity.
  - intros i [=].
  - intros i c' Hc' Hi.
    assert (i = 2 ∧ c' = mkConversation {[2; 3]} 15 16) as [-> ->].
    { revert Hc'. unfold two_conversations, example_store. simpl.
      rewrite !lookup_insert. repeat case_decide; try congruence.
      - intros [= <-]. done.
      - by rewrite lookup_empty. }
    vm_compute. reflexivity.
  - apply (bool_decide_unpack _). vm_compute. exact I.
Defined.

(** X12: with a [sender_id] that is absent or not zero, an append is
    answered 201 exactly when the caller takes part in the conversation
    named by the payload, the payload has a content, and the [sender_id],
    if given, names an existing user; in every other case nothing is
    written. *)
Theorem append_succeeds_iff
    (s : Store) (u : Z) (clk : Clock) (d : MessageData) :
  wf s → data_sender_id d ≠ Some 0 →
  let r := handle s u clk (CreateMessage d) in
  let accepted :=
    ∃ cid c text,
      data_conversation d = Some cid ∧ conversations s !! cid = Some c
      ∧ u ∈ participants c ∧ data_content d = Some text
      ∧ ∀ i, data_sender_id d = Some i → is_Some (users s !! i) in
  (status r.2 = HTTP_201_CREATED ↔ accepted)
  ∧ (¬ accepted → r.1 = s).
Proof.
  intros Hwf Hzero r accepted.
  assert (Hok : accepted → status r.2 = HTTP_201_CREATED).
  { intros (cid & c & text & Hcid & Hc & Hu & Htext & Hsender). subst r.
    by rewrite (create_message_ok _ _ _ _ cid c text Hwf
                  (proj2 (Conversation_get_Some _ _ _ _) (conj Hc Hu))
                  Hcid Htext Hsender). }
  assert (Hcases : accepted ∨ (r.1 = s ∧ status r.2 ≠ HTTP_201_CREATED)).
  { subst r. unfold handle, exception_handler, view, MessageViewSet.create.
    destruct (data_conversation d) as [cid|] eqn:Hcid; simpl;
      [|unfold MessageSerializer_is_valid; rewrite Hcid; by right].
    assert (Hsave : ∀ c, conversations s !! cid = Some c → u ∈ participants c →
      let r0 := exception_handler s
        (do v <- MessageSerializer_is_valid s d;
         do r0 <- MessageSerializer_create s u clk v;
         Return (r0.1, Response_of HTTP_201_CREATED (BMessageData r0.2.1 r0.2.2))) in
      accepted ∨ (r0.1 = s ∧ status r0.2 ≠ HTTP_201_CREATED)).
    { intros c Hc Hu. unfold exception_handler, MessageSerializer_is_valid.
      rewrite Hcid.
      destruct (data_content d) as [text|] eqn:Htext; simpl; [|by right].
      rewrite bool_decide_eq_true_2 by eauto. simpl.
      unfold MessageSerializer_create. simpl.
      destruct (data_sender_id d) as [i|] eqn:Hi.
      - assert (i ≠ 0) as Hi0 by congruence.
        rewrite (proj2 (truthy_Some i) Hi0). simpl.
        destruct (users s !! i) as [user|] eqn:Huser; simpl; [|by right].
        left. exists cid, c, text. split_and!; [done..|].
        intros ? [= <-]. eauto.
      - left. exists cid, c, text. split_and!; done. }
    destruct (Conversation_get s cid u) as [c|] eqn:Hget; simpl.
    - apply Conversation_get_Some in Hget as [Hc Hu].
      destruct (negb (cid =? 0)); exact (Hsave c Hc Hu).
    - destruct (negb (cid =? 0)) eqn:H0; [by right|].
      apply negb_false_iff, Z.eqb_eq in H0. subst cid.
      unfold MessageSerializer_is_valid. rewrite Hcid.
      destruct (data_content d); simpl; [|by right].
      case_bool_decide as Hex; simpl; [|by right].
      destruct Hex as [c Hc]. pose proof (wf_conversation_id _ _ _ Hwf Hc). lia. }
  split.
  - split; [|done]. intros Hstatus. by destruct Hcases as [?|[_ ?]].
  - intros Hno. by destruct Hcases as [?|[? _]].
Qed.

Lemma append_succeeds_iff_witness :
  (handle example_store 1 (clock_from 20)
     (CreateMessage (mkMessageData (Some 9) (Some 1) (Some "hey"%string) None))).1
  = example_store.
Proof.
  refine (proj2
    (append_succeeds_iff example_store 1 (clock_from 20)
       (mkMessageData (Some 9) (Some 1) (Some "hey"%string) None) _ _) _).
  - apply (bool_decide_unpack _). vm_compute. exact I.
  - simpl. discriminate.
  - intros (cid & c & text & _ & _ & _ & _ & Hsender).
    destruct (Hsender 9 eq_refl) as [user Huser]. revert Huser.
    vm_compute. discriminate.
Defined.

(** ** More on the read flag *)

(** X13: [mark_as_read] sets the flag of any message the caller can see,
    the caller's own messages included, whereas
    [mark_conversation_as_read] leaves the caller's own messages as they
    were. *)
Theorem mark_as_read_marks_own_message
    (s : Store) (u : Z) (clk : Clock) (pk : Z) (m : Message) (q : option Z) :
  wf s → (pk, m) ∈ MessageViewSet.get_queryset s u q → sender m = u →
  messages (handle s u clk (MarkAsRead pk q)).1 !! pk
  = Some (set_is_read true m)
  ∧ messages (handle s u clk (MarkConversationAsRead (Some (conversation m)))).1
    !! pk = Some m.
Proof.
  intros Hwf Hin Hsender. split.
  - rewrite (mark_as_read_visible _ _ _ _ _ _ Hin). simpl. apply lookup_insert_eq.
  - apply message_queryset_spec in Hin as (Hm & Hvis & _).
    apply has_participant_spec in Hvis as (c & Hc & Hu).
    rewrite mark_conversation_as_read_eq.
    rewrite truthy_positive by (eapply wf_conversation_id; eauto). simpl.
    rewrite (proj2 (Conversation_get_Some _ _ _ _) (conj Hc Hu)). simpl.
    rewrite lookup_fmap, Hm. simpl.
    rewrite bool_decide_eq_false_2; [done|]. intros [_ Hne]. done.
Qed.

Lemma mark_as_read_marks_own_message_witness :
  messages (handle example_store 1 (clock_from 20) (MarkAsRead 1 None)).1 !! 1
  = Some (set_is_read true (mkMessage 1 1 "hi" 11 false))
  ∧ messages
      (handle example_store 1 (clock_from 20) (MarkConversationAsRead (Some 1))).1
    !! 1 = Some (mkMessage 1 1 "hi" 11 false).
Proof.
  apply (mark_as_read_marks_own_message example_store 1 (clock_from 20) 1
           (mkMessage 1 1 "hi" 11 false) None).
  - apply (bool_decide_unpack _). vm_compute. exact I.
  - apply (bool_decide_unpack _). vm_compute. exact I.
  - reflexivity.
Defined.

(** X14: [mark_as_read] on a key that is not in the caller's message
    queryset (no such message, a message of a conversation without the
    caller, or a message outside the conversation named by the query
    parameter) is answered 404 and changes nothing. *)
Theorem mark_as_read_not_found
    (s : Store) (u : Z) (clk : Clock) (pk : Z) (q : option Z) :
  (∀ m, (pk, m) ∉ MessageViewSet.get_queryset s u q) →
  handle s u clk (MarkAsRead pk q)
  = (s, Response_of HTTP_404_NOT_FOUND BDetail).
Proof.
  intros Hnot. rewrite mark_as_read_eq.
  destruct (get_object _ pk) as [[pk' m]|e] eqn:Hobj; [|done].
  apply get_object_Return in Hobj as [Hpk Hin]. simpl in Hpk. subst pk'.
  by destruct (Hnot m).
Qed.

Lemma mark_as_read_not_found_witness :
  handle example_store 3 (clock_from 20) (MarkAsRead 2 None)
  = (example_store, Response_of HTTP_404_NOT_FOUND BDetail).
Proof.
  apply (mark_as_read_not_found example_store 3 (clock_from 20) 2 None).
  intros m Hin. revert Hin. vm_compute. intros Hin. inversion Hin.
Defined.

(** X15: [mark_conversation_as_read] is answered 200 exactly when
    [conversation_id] names a conversation in which the caller takes part;
    in every other case (no id, id 0, unknown conversation, conversation
    without the caller) nothing is changed; and it never touches a
    conversation row, its last-activity stamp included. *)
Theorem mark_conversation_as_read_succeeds_iff
    (s : Store) (u : Z) (clk : Clock) (q : option Z) :
  wf s →
  let r := handle s u clk (MarkConversationAsRead q) in
  let allowed :=
    ∃ cid c, q = Some cid ∧ conversations s !! cid = Some c ∧ u ∈ participants c in
  (status r.2 = HTTP_200_OK ↔ allowed)
  ∧ (¬ allowed → r.1 = s)
  ∧ conversations r.1 = conversations s.
Proof.
  intros Hwf r allowed. subst r. rewrite mark_conversation_as_read_eq.
  destruct (negb (truthy q)) eqn:Htruthy.
  { assert (¬ allowed) as Hno.
    { intros (cid & c & -> & Hc & _).
      rewrite truthy_positive in Htruthy by (eapply wf_conversation_id; eauto).
      done. }
    simpl. split_and!; [split; [done|tauto]|done..]. }
  destruct q as [cid|]; simpl; [|done].
  destruct (Conversation_get s cid u) as [c|] eqn:Hget; simpl.
  - apply Conversation_get_Some in Hget as [Hc Hu].
    assert allowed as Hyes by (exists cid, c; eauto).
    split_and!; [done|tauto|done].
  - assert (¬ allowed) as Hno.
    { intros (cid' & c & [= <-] & Hc & Hu).
      rewrite (proj2 (Conversation_get_Some _ _ _ _) (conj Hc Hu)) in Hget. done. }
    split_and!; [split; [done|tauto]|done..].
Qed.

Lemma mark_conversation_as_read_succeeds_iff_witness :
  (handle example_store 3 (clock_from 20) (MarkConversationAsRead (Some 1))).1
  = example_store.
Proof.
  refine (proj1 (proj2
    (mark_conversation_as_read_succeeds_iff example_store 3 (clock_from 20)
       (Some 1) _)) _).
  - apply (bool_decide_unpack _). vm_compute. exact I.
  - intros (cid & c & [= <-] & Hc & Hu). revert Hc Hu.
    change (conversations example_store !! 1)
      with (Some (mkConversation {[1; 2]} 10 10)).
    intros [= <-]. vm_compute. discriminate.
Defined.

(** ** What no operation does *)

Lemma handle_users s u clk req : users (handle s u clk req).1 = users s.
Proof.
  destruct req as [|ids|pk i|pk i|q|d|pk q|q].
  - done.
  - by create_conversation_cases ids.
  - rewrite add_participant_eq.
    destruct (Conversation_get s pk u); [|done].
    destruct (negb (truthy i)); [done|].
    by destruct (User_get s i) as [[j user]|].
  - rewrite remove_participant_eq.
    destruct (Conversation_get s pk u); [|done].
    destruct (negb (truthy i)); [done|].
    by destruct (User_get s i) as [[j user]|].
  - done.
  - unfold handle, exception_handler, view, MessageViewSet.create.
    assert (Hsave :
      users (exception_handler s
        (do v <- MessageSerializer_is_valid s d;
         do r0 <- MessageSerializer_create s u clk v;
         Return (r0.1, Response_of HTTP_201_CREATED (BMessageData r0.2.1 r0.2.2)))).1
      = users s).
    { unfold exception_handler, MessageSerializer_is_valid.
      destruct (data_conversation d); [|done].
      destruct (data_content d); [|done].
      case_bool_decide; simpl; [|done].
      unfold MessageSerializer_create, Message_objects_create. simpl.
      destruct (negb (truthy (data_sender_id d))).
      - by case_bool_decide.
      - destruct (data_sender_id d) as [sid|]; simpl.
        + by destruct (users s !! sid) eqn:Hsid.
        + by case_bool_decide. }
    destruct (truthy (data_conversation d)); [|exact Hsave].
    destruct (data_conversation d ≫= _); [exact Hsave|done].
  - rewrite mark_as_read_eq. by destruct (get_object _ pk) as [[pk' m]|e].
  - rewrite mark_conversation_as_read_eq.
    destruct (negb (truthy q)); [done|].
    by destruct (q ≫= _) as [[cid c]|].
Qed.

(** X16: no operation of the interface deletes a row or rewrites what is
    fixed at creation: the user table is left alone, every conversation is
    still there with its creation stamp, every message is still there with
    its sender, conversation, content and timestamp, and the key sequences
    never go back. *)
Theorem interface_never_deletes
    (s : Store) (u : Z) (clk : Clock) (req : Request) :
  wf s →
  let s' := (handle s u clk req).1 in
  users s' = users s
  ∧ (∀ i c, conversations s !! i = Some c →
       ∃ c', conversations s' !! i = Some c' ∧ created_at c' = created_at c)
  ∧ (∀ i m, messages s !! i = Some m →
       ∃ m', messages s' !! i = Some m' ∧ sender m' = sender m
             ∧ conversation m' = conversation m ∧ content m' = content m
             ∧ timestamp m' = timestamp m)
  ∧ next_conversation_id s ≤ next_conversation_id s'
  ∧ next_message_id s ≤ next_message_id s'.
Proof.
  intros Hwf s'. split; [apply handle_users|]. subst s'.
  assert (Hsame : (∀ i c, conversations s !! i = Some c →
       ∃ c', conversations s !! i = Some c' ∧ created_at c' = created_at c)
    ∧ (∀ i m, messages s !! i = Some m →
       ∃ m', messages s !! i = Some m' ∧ sender m' = sender m
             ∧ conversation m' = conversation m ∧ content m' = content m
             ∧ timestamp m' = timestamp m)
    ∧ next_conversation_id s ≤ next_conversation_id s
    ∧ next_message_id s ≤ next_message_id s) by (split_and!; eauto 10; lia).
  assert (Hparts : ∀ pk c ps,
    conversations s !! pk = Some c →
    ∀ i c0, conversations s !! i = Some c0 →
      ∃ c', <[pk := set_participants ps c]> (conversations s) !! i = Some c'
            ∧ created_at c' = created_at c0).
  { intros pk c ps Hc i c0 Hc0. rewrite lookup_insert. case_decide; [|eauto].
    subst i. eexists. split; [done|]. simpl. congruence. }
  assert (Htouch : ∀ now cid i c0, conversations s !! i = Some c0 →
      ∃ c', alter (Conversation_save now) cid (conversations s) !! i = Some c'
            ∧ created_at c' = created_at c0).
  { intros now cid i c0 Hc0. rewrite lookup_alter. case_decide; [|eauto].
    subst i. rewrite Hc0. simpl. eauto. }
  destruct req as [|ids|pk i|pk i|q|d|pk q|q].
  - exact Hsame.
  - create_conversation_cases ids; simpl; (split_and!; [|eauto 10|lia|lia]);
      intros i c Hc; (rewrite lookup_insert_ne; [eauto|]);
      pose proof (wf_conversation_id _ _ _ Hwf Hc); lia.
  - rewrite add_participant_eq.
    destruct (Conversation_get s pk u) as [c|] eqn:Hget; [|exact Hsame].
    apply Conversation_get_Some in Hget as [Hc _].
    destruct (negb (truthy i)); [exact Hsame|].
    destruct (User_get s i) as [[j user]|]; [|exact Hsame].
    simpl. split_and!; [by apply Hparts|eauto 10|lia|lia].
  - rewrite remove_participant_eq.
    destruct (Conversation_get s pk u) as [c|] eqn:Hget; [|exact Hsame].
    apply Conversation_get_Some in Hget as [Hc _].
    destruct (negb (truthy i)); [exact Hsame|].
    destruct (User_get s i) as [[j user]|]; [|exact Hsame].
    simpl. split_and!; [by apply Hparts|eauto 10|lia|lia].
  - exact Hsame.
  - destruct (handle s u clk (CreateMessage d)) as [s' r] eqn:Hreq.
    destruct (create_message_inv _ _ _ _ _ _ Hwf Hreq)
      as [[-> _]|(cid & c0 & sid & text & _ & _ & _ & -> & _)]; [exact Hsame|].
    simpl. split_and!; [by apply Htouch| |lia|lia].
    intros i m Hm. rewrite lookup_insert_ne; [eauto 10|].
    pose proof (wf_message_id _ _ _ Hwf Hm). lia.
  - rewrite mark_as_read_eq.
    destruct (get_object _ pk) as [[pk' m0]|e] eqn:Hobj; [|exact Hsame].
    apply message_get_object in Hobj as (Hpk & Hm0 & _). simpl in *. subst pk'.
    split_and!; [by apply Htouch| |lia|lia].
    intros i m Hm. rewrite lookup_insert. case_decide; [|eauto 10].
    subst i. assert (m0 = m) as -> by congruence. eexists. split; [done|]. done.
  - rewrite mark_conversation_as_read_eq.
    destruct (negb (truthy q)); [exact Hsame|].
    destruct (q ≫= _) as [[cid c]|]; [|exact Hsame].
    simpl. split_and!; [eauto| |lia|lia].
    intros i m Hm. rewrite lookup_fmap, Hm. simpl.
    eexists. split; [done|]. by case_bool_decide.
Qed.

Lemma interface_never_deletes_witness :
  users (handle example_store 2 (clock_from 20) (RemoveParticipant 1 (Some 2))).1
  = users example_store.
Proof.
  refine (proj1 (interface_never_deletes example_store 2 (clock_from 20)
                   (RemoveParticipant 1 (Some 2)) _)).
  apply (bool_decide_unpack _). vm_compute. exact I.
Defined.

(** X17: whatever sequence of requests the users of the user table send,
    the store stays well formed (keys below their sequences, foreign keys
    resolved) and the user table stays the same. *)
Theorem run_keeps_store_well_formed
    (s : Store) (trace : list (Z * Clock * Request)) :
  wf s → Forall (λ e, is_Some (users s !! e.1.1)) trace →
  wf (run s trace) ∧ users (run s trace) = users s.
Proof.
  revert s. induction trace as [|[[u clk] req] rest IH]; intros s Hwf Hall.
  - done.
  - apply Forall_cons in Hall as [Hu Hrest]. simpl in Hu. simpl.
    destruct (handle s u clk req) as [s' r] eqn:Hreq. simpl.
    assert (Husers : users s' = users s).
    { pose proof (handle_users s u clk req) as Heq. by rewrite Hreq in Heq. }
    destruct (IH s') as [Hwf' Hu'].
    + by eapply wf_handle.
    + by rewrite Husers.
    + split; [done|]. by rewrite Hu'.
Qed.

Lemma run_keeps_store_well_formed_witness :
  wf (run example_store
        [(3, clock_from 20, CreateConversation (Some [1]));
         (1, clock_from 30,
          CreateMessage (mkMessageData None (Some 2) (Some "hey"%string) None));
         (3, clock_from 40, MarkConversationAsRead (Some 2))]).
Proof.
  refine (proj1 (run_keeps_store_well_formed example_store _ _ _)).
  - apply (bool_decide_unpack _). vm_compute. exact I.
  - repeat constructor; apply (bool_decide_unpack _); vm_compute; exact I.
Defined.

(** ** Rendering a message *)

Lemma length_append (a b : string) :
  String.length (String.append a b) = (String.length a + String.length b)%nat.
Proof. induction a as [|ch a IH]; simpl; [done|]. by rewrite IH. Qed.

Lemma length_substring_0 (n : nat) (t : string) :
  String.length (substring 0 n t) = (n `min` String.length t)%nat.
Proof.
  revert t. induction n as [|n IH]; intros [|ch t]; simpl; try done.
  by rewrite IH.
Qed.

Lemma substring_0_all (n : nat) (t : string) :
  (String.length t ≤ n)%nat → substring 0 n t = t.
Proof.
  revert t. induction n as [|n IH]; intros [|ch t]; simpl; try done.
  - lia.
  - intros Hlen. rewrite IH; [done|lia].
Qed.

Lemma substring_0_append (a b : string) :
  substring 0 (String.length a) (String.append a b) = a.
Proof.
  induction a as [|ch a IH]; simpl.
  - by destruct b.
  - by rewrite IH.
Qed.

Lemma append_empty_r (a : string) : String.append a EmptyString = a.
Proof.
  induction a as [|ch a IH]; [done|].
  change (String ch (String.append a EmptyString) = String ch a).
  by rewrite IH.
Qed.

(** X18: a preview is the content itself up to 50 characters and 53
    characters long beyond (so longer than a content of 51 or 52
    characters); previewing a preview changes nothing; and what
    [Message.__str__] prints after the sender's name is that preview. *)
Theorem content_preview_properties (s : Store) (m : Message) (text : string) :
  String.length (content_preview text)
  = (if (50 <? String.length text)%nat then 53%nat else String.length text)
  ∧ content_preview (content_preview text) = content_preview text
  ∧ substring 0 50 (content_preview text) = substring 0 50 text
  ∧ Message_str s m
    = (λ user, String.append (username user)
                 (String.append ": " (content_preview (content m))))
      <$> users s !! sender m.
Proof.
  assert (Hlong : ∀ t, (50 < String.length t)%nat →
    String.length (substring 0 50 t) = 50%nat).
  { intros t Ht. rewrite length_substring_0. lia. }
  assert (Hcut : ∀ t, (50 < String.length t)%nat →
    substring 0 50 (String.append (substring 0 50 t) "...") = substring 0 50 t).
  { intros t Ht. rewrite <- (Hlong t Ht) at 1. apply substring_0_append. }
  split_and!.
  - unfold content_preview. destruct (Nat.ltb_spec 50 (String.length text)); [|done].
    rewrite length_append, Hlong by done. done.
  - unfold content_preview at 2 3.
    destruct (Nat.ltb_spec 50 (String.length text)) as [Hlt|Hle].
    + unfold content_preview.
      rewrite length_append, Hlong by done.
      change (50 <? 50 + String.length "...")%nat with true. cbv iota.
      by rewrite Hcut.
    + unfold content_preview. destruct (Nat.ltb_spec 50 (String.length text)); [lia|done].
  - unfold content_preview.
    destruct (Nat.ltb_spec 50 (String.length text)); [by apply Hcut|done].
  - unfold Message_str, content_preview.
    destruct (Nat.ltb_spec 50 (String.length (content m))) as [Hlt|Hle];
      [done|].
    rewrite append_empty_r, substring_0_all by done. done.
Qed.

(** ** Searching users *)

(** X19: the user listing never contains the caller; it holds every other
    user, each once, when [search] is absent or empty, and otherwise those
    other users one of whose four searched columns contains the text. *)
Theorem user_listing_excludes_caller
    (icontains : string → string → bool) (first_name last_name : Z → string)
    (s : Store) (u : Z) (search : option string) :
  let queryset :=
    UserViewSet.get_queryset icontains first_name last_name s u search in
  (∀ user, (u, user) ∉ queryset)
  ∧ NoDup queryset.*1
  ∧ (∀ i user, (i, user) ∈ queryset
       ↔ users s !! i = Some user ∧ i ≠ u
         ∧ (truthy_text search = true →
            icontains (username user) (default EmptyString search)
            || icontains (email user) (default EmptyString search)
            || icontains (first_name i) (default EmptyString search)
            || icontains (last_name i) (default EmptyString search) = true))
  ∧ UserViewSet.get_queryset icontains first_name last_name s u (Some EmptyString)
    = UserViewSet.get_queryset icontains first_name last_name s u None.
Proof.
  intros queryset.
  assert (Hspec : ∀ i user, (i, user) ∈ queryset
       ↔ users s !! i = Some user ∧ i ≠ u
         ∧ (truthy_text search = true →
            icontains (username user) (default EmptyString search)
            || icontains (email user) (default EmptyString search)
            || icontains (first_name i) (default EmptyString search)
            || icontains (last_name i) (default EmptyString search) = true)).
  { intros i user. subst queryset. unfold UserViewSet.get_queryset.
    destruct (truthy_text search).
    - rewrite !list_elem_of_filter, elem_of_map_to_list. simpl. tauto.
    - rewrite list_elem_of_filter, elem_of_map_to_list. simpl.
      split; [intros []; split_and!; done|tauto]. }
  split_and!.
  - intros user Hin. apply Hspec in Hin as (_ & Hne & _). done.
  - apply NoDup_fmap_fst.
    + intros i x y [Hx _]%Hspec [Hy _]%Hspec. congruence.
    + subst queryset. unfold UserViewSet.get_queryset.
      destruct (truthy_text search); repeat apply NoDup_filter;
        apply NoDup_map_to_list.
  - exact Hspec.
  - reflexivity.
Qed.
